(** * The flubber event hub (flubber/core/hub.py)

    A shallow embedding of the Hub, its timers, its next-tick queue and its
    cross-thread call path.  Python objects live in heaps indexed by
    identifiers; every method is a state transformer over the [World] that
    either returns or raises.  The reactor (pyuv) is an external library,
    modelled by its contract; the fiber primitive (flubber.core._greenlet)
    and the thread pool (flubber.threadpool) belong to the package but not
    to the sources at hand, and are modelled from the specification. *)

From stdpp Require Import gmap strings list.

(** ** Identifiers *)

Definition thread := nat.
Definition hub_id := nat.
Definition timer_id := nat.
Definition handle_id := nat.
Definition loop_id := nat.

(** A greenlet is either the implicit main greenlet of a thread or one that
    was spawned with [greenlet(run)]. *)
Inductive fiber_id :=
| MainFiber (th : thread)
| Fiber (n : nat).

#[global] Instance fiber_id_eq_dec : EqDecision fiber_id.
Proof. solve_decision. Defined.

#[global] Instance fiber_id_countable : Countable fiber_id.
Proof.
  refine (inj_countable'
            (λ f, match f with MainFiber t => inl t | Fiber n => inr n end)
            (λ s, match s with inl t => MainFiber t | inr n => Fiber n end) _).
  by intros [].
Defined.

(** ** Exceptions *)

(** The exception classes the module raises or classifies.  [HandleClosedError]
    is pyuv's; [DanglingRef] is not a Python exception: it is the model's
    answer when an identifier names no object, which no Python program can
    observe. *)
Inductive exn_class :=
| RuntimeError
| AttributeError
| ValueError
| KeyError
| TypeError
| KeyboardInterrupt
| SystemExit
| SystemError
| GreenletExit
| HandleClosedError
| UserException (n : nat)
| DanglingRef.

#[global] Instance exn_class_eq_dec : EqDecision exn_class.
Proof. solve_decision. Defined.

Record exn := Exn { exn_typ : exn_class; exn_msg : string }.

#[global] Instance exn_eq_dec : EqDecision exn.
Proof. solve_decision. Defined.

(** [issubclass(typ, classes)] for a tuple of classes; none of the classes
    above derives from another one of them. *)
Definition issubclass (typ : exn_class) (classes : list exn_class) : bool :=
  bool_decide (typ ∈ classes).

(** ** User callables *)

(** A callable handed to the Hub ([partial(func, *args, **kw)], a
    [switch_out] hook).  What a callable may do is described by a small
    program over the operations of this module. *)
Inductive callback :=
| Note (tag : nat)                          (* records [tag] and returns *)
| Throw (e : exn)                           (* raises [e] *)
| CallNextTick (h : hub_id) (f : callback)  (* [h.next_tick(f)] *)
| CallCancel (t : timer_id)                 (* [t.cancel()] *)
| Then (a b : callback).                    (* [a] then, unless it raised, [b] *)

(** ** Objects *)

(** What a reactor handle calls when it fires. *)
Inductive handle_cb :=
| CbUnset
| CbWakerNoop                       (* [lambda x: None] *)
| CbTimer (t : timer_id)            (* bound method [_Timer._timer_cb] *)
| CbTick (h : hub_id)               (* bound method [Hub._tick_cb] *)
| CbIdleStop                        (* [lambda handle: handle.stop()] *)
| CbFromThread (func : callback).   (* closure [_cb] of [call_from_thread] *)

Inductive handle_kind := HTimer | HAsync | HPrepare | HIdle | HSignalChecker.

Record Handle := mkHandle {
  h_kind : handle_kind;
  h_loop : loop_id;
  h_cb : handle_cb;
  active : bool;
  closed : bool;
  h_ref : bool;      (* cleared by [unref()] *)
  h_sent : bool;     (* an async wake is pending *)
}.

Record LoopObj := mkLoop {
  excepthook : option hub_id;   (* bound method [Hub._handle_error] of that Hub *)
}.

Record TimerObj := mkTimer {
  called : bool;
  cb : option callback;
  _timer : option handle_id;
}.

Record HubObj := mkHub {
  greenlet : fiber_id;
  loop : option loop_id;
  threadpool : option unit;
  _timers : option (gset timer_id);
  _waker : option handle_id;
  _signal_checker : option handle_id;
  _tick_prepare : option handle_id;
  _tick_idle : option handle_id;
  _tick_callbacks : option (list callback);
}.

(** ** Observable events *)

Inductive call_site :=
| SiteTimer (t : timer_id)        (* [self.cb()] in [_Timer._timer_cb] *)
| SiteTick (h : hub_id)           (* [f()] in [Hub._tick_cb] *)
| SiteFromThread (a : handle_id)  (* the call of [func] in [_cb] *)
| SiteSwitchOut (f : fiber_id).   (* [switch_out()] in [Hub.switch] *)

#[global] Instance call_site_eq_dec : EqDecision call_site.
Proof. solve_decision. Defined.

Inductive event :=
| EvCall (site : call_site) (th : thread) (c : callback)
| EvNote (tag : nat)
| EvPrintException (e : exn)                (* [traceback.print_exception] *)
| EvThrow (target : fiber_id) (e : exn)     (* [greenlet.throw] *)
| EvSwitch (src dst : fiber_id)             (* [greenlet.switch] *)
| EvEnqueue (h : hub_id) (f : callback)     (* [append] to the tick queue *)
| EvStart (h : handle_id)                   (* [handle.start] *)
| EvStop (h : handle_id).                   (* [handle.stop] *)

(** ** The world *)

Record World := mkWorld {
  tls : gmap thread hub_id;          (* attribute [hub] of [_tls], per thread *)
  hubs : gmap hub_id HubObj;
  timers : gmap timer_id TimerObj;
  handles : gmap handle_id Handle;
  loops : gmap loop_id LoopObj;
  parent : gmap fiber_id fiber_id;   (* [greenlet.parent]; absent for a root *)
  hook : gmap fiber_id callback;     (* attribute [switch_out] of a greenlet *)
  running : gmap thread fiber_id;    (* what [get_current()] answers *)
  next_id : nat;                     (* next fresh object identity *)
  trace : list event;                (* oldest first *)
}.

Definition empty_world : World :=
  mkWorld ∅ ∅ ∅ ∅ ∅ ∅ ∅ ∅ 0 [].

Definition set_tls (f : gmap thread hub_id → gmap thread hub_id) (w : World) : World :=
  mkWorld (f (tls w)) (hubs w) (timers w) (handles w) (loops w) (parent w)
          (hook w) (running w) (next_id w) (trace w).
Definition set_hubs (f : gmap hub_id HubObj → gmap hub_id HubObj) (w : World) : World :=
  mkWorld (tls w) (f (hubs w)) (timers w) (handles w) (loops w) (parent w)
          (hook w) (running w) (next_id w) (trace w).
Definition set_timers (f : gmap timer_id TimerObj → gmap timer_id TimerObj) (w : World) : World :=
  mkWorld (tls w) (hubs w) (f (timers w)) (handles w) (loops w) (parent w)
          (hook w) (running w) (next_id w) (trace w).
Definition set_handles (f : gmap handle_id Handle → gmap handle_id Handle) (w : World) : World :=
  mkWorld (tls w) (hubs w) (timers w) (f (handles w)) (loops w) (parent w)
          (hook w) (running w) (next_id w) (trace w).
Definition set_loops (f : gmap loop_id LoopObj → gmap loop_id LoopObj) (w : World) : World :=
  mkWorld (tls w) (hubs w) (timers w) (handles w) (f (loops w)) (parent w)
          (hook w) (running w) (next_id w) (trace w).
Definition set_parent_map (f : gmap fiber_id fiber_id → gmap fiber_id fiber_id) (w : World) : World :=
  mkWorld (tls w) (hubs w) (timers w) (handles w) (loops w) (f (parent w))
          (hook w) (running w) (next_id w) (trace w).
Definition set_hook (f : gmap fiber_id callback → gmap fiber_id callback) (w : World) : World :=
  mkWorld (tls w) (hubs w) (timers w) (handles w) (loops w) (parent w)
          (f (hook w)) (running w) (next_id w) (trace w).
Definition set_running (f : gmap thread fiber_id → gmap thread fiber_id) (w : World) : World :=
  mkWorld (tls w) (hubs w) (timers w) (handles w) (loops w) (parent w)
          (hook w) (f (running w)) (next_id w) (trace w).
Definition set_next_id (n : nat) (w : World) : World :=
  mkWorld (tls w) (hubs w) (timers w) (handles w) (loops w) (parent w)
          (hook w) (running w) n (trace w).
Definition set_trace (f : list event → list event) (w : World) : World :=
  mkWorld (tls w) (hubs w) (timers w) (handles w) (loops w) (parent w)
          (hook w) (running w) (next_id w) (f (trace w)).

(** ** Computations that return or raise *)

Inductive result (A : Type) :=
| Ok (a : A)
| Raise (e : exn).
Arguments Ok {A} a.
Arguments Raise {A} e.

(** Mutations made before an exception is raised stay in the world. *)
Definition M (A : Type) : Type := World → World * result A.

Definition ret {A} (a : A) : M A := λ w, (w, Ok a).
Definition raise {A} (e : exn) : M A := λ w, (w, Raise e).
Definition bind {A B} (m : M A) (k : A → M B) : M B :=
  λ w, match m w with
       | (w1, Ok a) => k a w1
       | (w1, Raise e) => (w1, Raise e)
       end.

Notation "x <~ m ;; k" := (bind m (λ x, k))
  (at level 66, m at next level, right associativity).
Notation "m >> k" := (bind m (λ _, k))
  (at level 66, right associativity).

Definition get {A} (f : World → A) : M A := λ w, (w, Ok (f w)).
Definition modify (f : World → World) : M unit := λ w, (f w, Ok tt).
Definition emit (e : event) : M unit := modify (set_trace (λ t, t ++ [e])).

(** [try: body finally: fin] *)
Definition try_finally {A} (body : M A) (fin : M unit) : M A :=
  λ w, match body w with
       | (w1, r) =>
           match fin w1 with
           | (w2, Ok _) => (w2, r)
           | (w2, Raise e) => (w2, Raise e)
           end
       end.

(** [try: body except cls: pass] *)
Definition try_except_pass (cls : exn_class) (body : M unit) : M unit :=
  λ w, match body w with
       | (w1, Ok _) => (w1, Ok tt)
       | (w1, Raise e) =>
           if decide (exn_typ e = cls) then (w1, Ok tt) else (w1, Raise e)
       end.

(** A fresh object identity. *)
Definition alloc : M nat :=
  λ w, (set_next_id (S (next_id w)) w, Ok (next_id w)).

(** Dereferencing an object identifier. *)
Definition deref {A} (what : string) (o : option A) : M A :=
  match o with
  | Some a => ret a
  | None => raise (Exn DanglingRef what)
  end.

(** Reading an attribute of something that may be [None]. *)
Definition not_none {A} (attr : string) (o : option A) : M A :=
  match o with
  | Some a => ret a
  | None => raise (Exn AttributeError ("'NoneType' object has no attribute '" +:+ attr +:+ "'"))
  end.

Definition hub_obj (h : hub_id) : M HubObj :=
  o <~ get (λ w, hubs w !! h) ;; deref "Hub" o.
Definition timer_obj (t : timer_id) : M TimerObj :=
  o <~ get (λ w, timers w !! t) ;; deref "_Timer" o.
Definition put_hub (h : hub_id) (H : HubObj) : M unit :=
  modify (set_hubs <[h := H]>).
Definition put_timer (t : timer_id) (T : TimerObj) : M unit :=
  modify (set_timers <[t := T]>).

Definition with_timers (s : option (gset timer_id)) (H : HubObj) : HubObj :=
  mkHub (greenlet H) (loop H) (threadpool H) s (_waker H) (_signal_checker H)
        (_tick_prepare H) (_tick_idle H) (_tick_callbacks H).
Definition with_tick_callbacks (q : option (list callback)) (H : HubObj) : HubObj :=
  mkHub (greenlet H) (loop H) (threadpool H) (_timers H) (_waker H)
        (_signal_checker H) (_tick_prepare H) (_tick_idle H) q.

(** ** The reactor's handles (pyuv), by contract *)

Module pyuv.

Definition get_handle (h : handle_id) : M Handle :=
  o <~ get (λ w, handles w !! h) ;; deref "Handle" o.
Definition put_handle (h : handle_id) (H : Handle) : M unit :=
  modify (set_handles <[h := H]>).

(** Every operation but the [active] and [closed] properties refuses a
    closed handle. *)
Definition open_handle (h : handle_id) : M Handle :=
  H <~ get_handle h ;;
  if closed H then raise (Exn HandleClosedError "Handle is closing/closed")
  else ret H.

Definition new_handle (k : handle_kind) (l : option loop_id) (c : handle_cb)
    (act : bool) : M handle_id :=
  match l with
  | None => raise (Exn TypeError "argument 1 must be pyuv.Loop, not None")
  | Some l =>
      h <~ alloc ;;
      put_handle h (mkHandle k l c act false true false) >> ret h
  end.

Definition Loop : M loop_id :=
  l <~ alloc ;; modify (set_loops <[l := mkLoop None]>) >> ret l.
Definition Timer (l : option loop_id) : M handle_id :=
  new_handle HTimer l CbUnset false.
Definition Async (l : option loop_id) (c : handle_cb) : M handle_id :=
  new_handle HAsync l c true.
Definition Prepare (l : option loop_id) : M handle_id :=
  new_handle HPrepare l CbUnset false.
Definition Idle (l : option loop_id) : M handle_id :=
  new_handle HIdle l CbUnset false.
Definition SignalChecker (l : option loop_id) : M handle_id :=
  new_handle HSignalChecker l CbUnset false.

Definition start (h : handle_id) (c : handle_cb) : M unit :=
  H <~ open_handle h ;;
  put_handle h (mkHandle (h_kind H) (h_loop H) c true false (h_ref H) (h_sent H)) >>
  emit (EvStart h).
Definition stop (h : handle_id) : M unit :=
  H <~ open_handle h ;;
  put_handle h (mkHandle (h_kind H) (h_loop H) (h_cb H) false false (h_ref H) (h_sent H)) >>
  emit (EvStop h).
Definition close (h : handle_id) : M unit :=
  H <~ open_handle h ;;
  put_handle h (mkHandle (h_kind H) (h_loop H) (h_cb H) false true (h_ref H) (h_sent H)).
Definition unref (h : handle_id) : M unit :=
  H <~ open_handle h ;;
  put_handle h (mkHandle (h_kind H) (h_loop H) (h_cb H) (active H) false false (h_sent H)).
Definition send (h : handle_id) : M unit :=
  H <~ open_handle h ;;
  put_handle h (mkHandle (h_kind H) (h_loop H) (h_cb H) (active H) false (h_ref H) true).

Definition set_excepthook (l : loop_id) (hk : option hub_id) : M unit :=
  modify (set_loops <[l := mkLoop hk]>).

(** [loop.walk(cb)] with the visitor of [Hub._cleanup_loop]:
    [if not handle.closed: handle.close()]. *)
Definition close_if_open (l : loop_id) (H : Handle) : Handle :=
  if bool_decide (h_loop H = l) && negb (closed H)
  then mkHandle (h_kind H) (h_loop H) (h_cb H) false true (h_ref H) (h_sent H)
  else H.
Definition walk_close (l : loop_id) : M unit :=
  modify (set_handles (fmap (close_if_open l))).

(** [loop.run()] once every handle of the loop is closed: nothing is left
    to wait for and no callback fires. *)
Definition run_drained (l : loop_id) : M unit := ret tt.

End pyuv.

(** ** The fiber primitive (flubber.core._greenlet) *)

(** Modelled from the spec: [get_current] of flubber.core._greenlet, which
    is not part of the sources; it answers the greenlet that runs on the
    calling thread, the thread's main greenlet unless another one was
    switched to. *)
Definition get_current (th : thread) : M fiber_id :=
  get (λ w, default (MainFiber th) (running w !! th)).

(** Modelled from the spec: [greenlet(run)] of flubber.core._greenlet;
    a new fiber is spawned under the current one, which becomes its
    parent. *)
Definition greenlet_new (th : thread) : M fiber_id :=
  n <~ alloc ;;
  cur <~ get_current th ;;
  modify (set_parent_map <[Fiber n := cur]>) >> ret (Fiber n).

(** Is [target] among [p], [p.parent], [p.parent.parent], ...?  A chain
    without a cycle is no longer than the parent map. *)
Fixpoint in_chain (fuel : nat) (pm : gmap fiber_id fiber_id)
    (p target : fiber_id) : bool :=
  if decide (p = target) then true
  else match fuel with
       | 0 => false
       | S k => match pm !! p with
                | None => false
                | Some q => in_chain k pm q target
                end
       end.

Definition would_cycle (w : World) (f nparent : fiber_id) : bool :=
  in_chain (size (parent w)) (parent w) nparent f.

(** Modelled from the spec: the parent setter of flubber.core._greenlet,
    a settable parent link that fails (ValueError, as [Hub.switch] expects)
    if it would create a cycle. *)
Definition greenlet_set_parent (f nparent : fiber_id) : M unit :=
  cyc <~ get (λ w, would_cycle w f nparent) ;;
  if cyc : bool then raise (Exn ValueError "cyclic parent chain")
  else modify (set_parent_map <[f := nparent]>).

(** Modelled from the spec: [target.switch()] of flubber.core._greenlet,
    called by the current greenlet of thread [th]; control goes to
    [target]. *)
Definition greenlet_switch (th : thread) (target : fiber_id) : M unit :=
  cur <~ get_current th ;;
  emit (EvSwitch cur target) >>
  modify (set_running <[th := target]>).

(** Modelled from the spec: [target.throw(typ, value)] of
    flubber.core._greenlet; control goes to [target], where the exception
    is raised. *)
Definition greenlet_throw (th : thread) (target : fiber_id) (e : exn) : M unit :=
  emit (EvThrow target e) >>
  modify (set_running <[th := target]>).

(** ** get_hub *)

(** [get_hub], called on thread [th] *)
Definition get_hub (th : thread) : M hub_id :=
  o <~ get (λ w, tls w !! th) ;;
  match o with
  | Some hub => ret hub
  | None => raise (Exn RuntimeError "there is no hub created in the current thread")
  end.

(** ** Waker *)

(** [Waker.__init__] with [hub.loop] and [Waker.wake] *)
Definition Waker___init__ (l : option loop_id) : M handle_id :=
  a <~ pyuv.Async l CbWakerNoop ;;
  pyuv.unref a >> ret a.

Definition Waker_wake (a : handle_id) : M unit := pyuv.send a.

(** ** Hub: construction, teardown, next tick *)

Definition SYSTEM_ERROR : list exn_class := [KeyboardInterrupt; SystemExit; SystemError].
Definition NOT_ERROR : list exn_class := [GreenletExit; SystemExit].

(** [Hub.__init__].  The thread pool is opaque: [ThreadPool(self)] is not
    part of the sources and nothing here looks into it. *)
Definition Hub___init__ (self : hub_id) (th : thread) : M unit :=
  o <~ get (λ w, tls w !! th) ;;
  match o with
  | Some _ => raise (Exn RuntimeError "cannot instantiate more than one Hub per thread")
  | None =>
      modify (set_tls <[th := self]>) >>
      g <~ greenlet_new th ;;
      l <~ pyuv.Loop ;;
      pyuv.set_excepthook l (Some self) >>
      wk <~ Waker___init__ (Some l) ;;
      sc <~ pyuv.SignalChecker (Some l) ;;
      tp <~ pyuv.Prepare (Some l) ;;
      ti <~ pyuv.Idle (Some l) ;;
      put_hub self (mkHub g (Some l) (Some tt) (Some ∅) (Some wk) (Some sc)
                          (Some tp) (Some ti) (Some []))
  end.

(** The expression [Hub()]: a new object, then [__init__] on it. *)
Definition Hub_new (th : thread) : M hub_id :=
  self <~ alloc ;;
  Hub___init__ self th >> ret self.

(** [Hub._cleanup_loop] *)
Definition Hub__cleanup_loop (self : hub_id) : M unit :=
  H <~ hub_obj self ;;
  l <~ not_none "walk" (loop H) ;;
  pyuv.walk_close l >>
  pyuv.run_drained l.

(** [Hub.destroy] *)
Definition Hub_destroy (self : hub_id) (th : thread) : M unit :=
  o <~ get (λ w, tls w !! th) ;;
  match o with
  | None => raise (Exn RuntimeError "hub is already destroyed")
  | Some hub =>
      if decide (hub = self) then modify (set_tls (delete th))
      else raise (Exn RuntimeError
        "destroy() can only be called from the same thread were the hub was created")
  end >>
  Hub__cleanup_loop self >>
  H <~ hub_obj self ;;
  l <~ not_none "excepthook" (loop H) ;;
  pyuv.set_excepthook l None >>
  put_hub self (mkHub (greenlet H) None None None None None None None None).

(** [Hub.next_tick]; [f] stands for [partial(func, *args, **kw)]. *)
Definition Hub_next_tick (self : hub_id) (f : callback) : M unit :=
  H <~ hub_obj self ;;
  q <~ not_none "append" (_tick_callbacks H) ;;
  put_hub self (with_tick_callbacks (Some (q ++ [f])) H) >>
  emit (EvEnqueue self f) >>
  p <~ not_none "active" (_tick_prepare H) ;;
  P <~ pyuv.get_handle p ;;
  if active P then ret tt
  else
    pyuv.start p (CbTick self) >>
    i <~ not_none "start" (_tick_idle H) ;;
    pyuv.start i CbIdleStop.

(** ** _Timer *)

Definition with_called (b : bool) (T : TimerObj) : TimerObj :=
  mkTimer b (cb T) (_timer T).
Definition with_cb (c : option callback) (T : TimerObj) : TimerObj :=
  mkTimer (called T) c (_timer T).
Definition with__timer (h : option handle_id) (T : TimerObj) : TimerObj :=
  mkTimer (called T) (cb T) h.

(** [hub._timers.remove(self)] *)
Definition timers_remove (hub : hub_id) (self : timer_id) : M unit :=
  H <~ hub_obj hub ;;
  s <~ not_none "remove" (_timers H) ;;
  if decide (self ∈ s) then put_hub hub (with_timers (Some (s ∖ {[self]})) H)
  else raise (Exn KeyError "").

(** [seconds] goes to the reactor, which alone decides when the handle
    fires; nothing in this module reads it back. *)
Definition _Timer___init__ (self : timer_id) (hub : hub_id) (seconds : nat)
    (c : callback) : M unit :=
  put_timer self (mkTimer false (Some c) None) >>
  H <~ hub_obj hub ;;
  s <~ not_none "add" (_timers H) ;;
  put_hub hub (with_timers (Some ({[self]} ∪ s)) H) >>
  h <~ pyuv.Timer (loop H) ;;
  T <~ timer_obj self ;;
  put_timer self (with__timer (Some h) T) >>
  pyuv.start h (CbTimer self).

(** The property [_Timer.pending] *)
Definition _Timer_pending (self : timer_id) : M bool :=
  T <~ timer_obj self ;; ret (negb (called T)).

(** [_Timer.cancel] *)
Definition _Timer_cancel (self : timer_id) (th : thread) : M unit :=
  T <~ timer_obj self ;;
  if called T then ret tt
  else
    put_timer self (with_called true T) >>
    h <~ not_none "close" (_timer T) ;;
    pyuv.close h >>
    T <~ timer_obj self ;;
    put_timer self (with__timer None T) >>
    hub <~ get_hub th ;;
    timers_remove hub self.

(** ** Running a user callable on thread [th] *)

Fixpoint run_cb (th : thread) (c : callback) : M unit :=
  match c with
  | Note tag => emit (EvNote tag)
  | Throw e => raise e
  | CallNextTick h f => Hub_next_tick h f
  | CallCancel t => _Timer_cancel t th
  | Then a b => run_cb th a >> run_cb th b
  end.

(** A call [c()] made at [site]. *)
Definition call (site : call_site) (th : thread) (c : callback) : M unit :=
  emit (EvCall site th c) >> run_cb th c.

(** The [finally] block of [_timer_cb]. *)
Definition _Timer__timer_cb_finally (self : timer_id) (th : thread) : M unit :=
  T <~ timer_obj self ;;
  put_timer self (with_cb None T) >>
  h <~ not_none "close" (_timer T) ;;
  pyuv.close h >>
  T <~ timer_obj self ;;
  put_timer self (with__timer None T) >>
  hub <~ get_hub th ;;
  timers_remove hub self.

(** [_Timer._timer_cb] *)
Definition _Timer__timer_cb (self : timer_id) (th : thread) : M unit :=
  T <~ timer_obj self ;;
  if called T then ret tt
  else
    put_timer self (with_called true T) >>
    try_finally
      (T <~ timer_obj self ;;
       match cb T with
       | Some c => call (SiteTimer self) th c
       | None => raise (Exn TypeError "'NoneType' object is not callable")
       end)
      (_Timer__timer_cb_finally self th).

(** ** Hub: the rest of the public operations *)

(** [Hub.call_later] *)
Definition Hub_call_later (self : hub_id) (seconds : nat) (c : callback) : M timer_id :=
  t <~ alloc ;;
  _Timer___init__ t self seconds c >> ret t.

(** The closure [_cb] of [call_from_thread]; its free variable [async] is
    the handle [a] it is installed on. *)
Definition call_from_thread__cb (a : handle_id) (func : callback) (th : thread) : M unit :=
  try_finally (call (SiteFromThread a) th func) (pyuv.close a).

(** [Hub.call_from_thread] *)
Definition Hub_call_from_thread (self : hub_id) (func : callback) : M unit :=
  H <~ hub_obj self ;;
  a <~ pyuv.Async (loop H) (CbFromThread func) ;;
  pyuv.send a.

(** [for f in queue: f()] *)
Fixpoint for_each {A} (l : list A) (body : A → M unit) : M unit :=
  match l with
  | [] => ret tt
  | x :: l' => body x >> for_each l' body
  end.

(** [Hub._tick_cb] *)
Definition Hub__tick_cb (self : hub_id) (th : thread) : M unit :=
  H <~ hub_obj self ;;
  p <~ not_none "stop" (_tick_prepare H) ;;
  pyuv.stop p >>
  i <~ not_none "stop" (_tick_idle H) ;;
  pyuv.stop i >>
  H <~ hub_obj self ;;
  put_hub self (with_tick_callbacks (Some []) H) >>
  queue <~ match _tick_callbacks H with
           | Some q => ret q
           | None => raise (Exn TypeError "'NoneType' object is not iterable")
           end ;;
  for_each queue (call (SiteTick self) th).

(** [Hub._handle_error]; [e] carries [typ] and [value]. *)
Definition Hub__handle_error (self : hub_id) (e : exn) (th : thread) : M unit :=
  (if issubclass (exn_typ e) NOT_ERROR then ret tt
   else emit (EvPrintException e)) >>
  if issubclass (exn_typ e) SYSTEM_ERROR then
    current <~ get_current th ;;
    H <~ hub_obj self ;;
    if decide (current = greenlet H) then
      p <~ get (λ w, parent w !! greenlet H) ;;
      p <~ not_none "throw" p ;;
      greenlet_throw th p e
    else
      (* [self.parent]: a Hub has a [greenlet] but no [parent] *)
      raise (Exn AttributeError "'Hub' object has no attribute 'parent'")
  else ret tt.

(** [Hub.switch_out] *)
Definition Hub_switch_out : M unit :=
  raise (Exn RuntimeError "Cannot switch to MAINLOOP from MAINLOOP").

(** [Hub.switch] *)
Definition Hub_switch (self : hub_id) (th : thread) : M unit :=
  current <~ get_current th ;;
  switch_out <~ get (λ w, hook w !! current) ;;
  match switch_out with
  | Some c => call (SiteSwitchOut current) th c
  | None => ret tt
  end >>
  H <~ hub_obj self ;;
  try_except_pass ValueError
    (p <~ get (λ w, parent w !! greenlet H) ;;
     if decide (p = Some current) then ret tt
     else greenlet_set_parent current (greenlet H)) >>
  greenlet_switch th (greenlet H).

(** ** The reactor firing a handle on the thread that drives the loop *)

Definition fire (h : handle_id) (th : thread) : M unit :=
  H <~ pyuv.get_handle h ;;
  if closed H || negb (active H) then ret tt
  else match h_cb H with
       | CbTimer t =>
           (* one-shot ([repeat] is 0.0): the handle stops before its callback *)
           pyuv.put_handle h (mkHandle (h_kind H) (h_loop H) (h_cb H) false
                                       false (h_ref H) (h_sent H)) >>
           _Timer__timer_cb t th
       | CbTick hub => Hub__tick_cb hub th
       | CbIdleStop => pyuv.stop h
       | CbFromThread func =>
           if h_sent H then
             pyuv.put_handle h (mkHandle (h_kind H) (h_loop H) (h_cb H) (active H)
                                         false (h_ref H) false) >>
             call_from_thread__cb h func th
           else ret tt
       | CbWakerNoop | CbUnset => ret tt
       end.

(** The [excepthook] of the loop a handle belongs to. *)
Definition excepthook_of (w : World) (h : handle_id) : option hub_id :=
  match handles w !! h with
  | Some H => match loops w !! h_loop H with
              | Some L => excepthook L
              | None => None
              end
  | None => None
  end.

(** An error escaping a callback goes to the loop's [excepthook]. *)
Definition dispatch (h : handle_id) (th : thread) : M unit :=
  λ w, match fire h th w with
       | (w1, Ok _) => (w1, Ok tt)
       | (w1, Raise e) =>
           match excepthook_of w1 h with
           | Some hub => Hub__handle_error hub e th w1
           | None => (w1, Raise e)
           end
       end.

(** ** Hub: entering and driving the loop *)

(** Modelled from the spec: the [dead] status of flubber.core._greenlet,
    which is not part of the sources: whether the run function of a
    greenlet has ended.  The greenlet library keeps that state and this
    module only reads it; [ended] is the set of the greenlets that are
    dead when the question is asked. *)
Definition greenlet_dead (ended : gset fiber_id) (g : fiber_id) : M bool :=
  ret (bool_decide (g ∈ ended)).

(** [Hub.join] *)
Definition Hub_join (ended : gset fiber_id) (self : hub_id) (th : thread) : M unit :=
  current <~ get_current th ;;
  H <~ hub_obj self ;;
  p <~ get (λ w, parent w !! greenlet H) ;;
  if decide (p = Some current) then
    dead <~ greenlet_dead ended (greenlet H) ;;
    if dead : bool then raise (Exn RuntimeError "hub has already ended")
    else greenlet_switch th (greenlet H)
  else raise (Exn RuntimeError "run() can only be called from MAIN greenlet").

(** [SignalChecker.start()] of pyuv, which takes no callback. *)
Definition SignalChecker_start (h : handle_id) : M unit :=
  H <~ pyuv.open_handle h ;;
  pyuv.put_handle h (mkHandle (h_kind H) (h_loop H) (h_cb H) true false
                              (h_ref H) (h_sent H)) >>
  emit (EvStart h).

(** [Hub._run_loop], the run function of the Hub's greenlet.  The call
    [self.loop.run()] is the reactor's: [run l th] stands for one run of
    loop [l] driven by thread [th], whatever it fires and however it
    ends. *)
Definition Hub__run_loop (run : loop_id → thread → M unit) (self : hub_id)
    (th : thread) : M unit :=
  H <~ hub_obj self ;;
  sc <~ not_none "start" (_signal_checker H) ;;
  SignalChecker_start sc >>
  try_finally
    (H <~ hub_obj self ;;
     l <~ not_none "run" (loop H) ;;
     run l th)
    (Hub__cleanup_loop self).

(** ** Vocabulary of the statements *)

(** The calls of user callables recorded in a trace, oldest first. *)
Definition call_of (ev : event) : option (call_site * thread * callback) :=
  match ev with
  | EvCall s th c => Some (s, th, c)
  | _ => None
  end.
Definition calls (tr : list event) : list (call_site * thread * callback) :=
  omap call_of tr.

(** How often the callable of timer [t] was entered. *)
Definition timer_calls (t : timer_id) (tr : list event) : nat :=
  length (filter (λ x, x.1.1 = SiteTimer t) (calls tr)).

(** How often a handle was armed. *)
Definition is_start (h : handle_id) (ev : event) : bool :=
  match ev with
  | EvStart h' => bool_decide (h' = h)
  | _ => false
  end.
Definition starts (h : handle_id) (tr : list event) : nat :=
  length (filter (λ ev, is_start h ev) tr).

Definition timer_called (w : World) (t : timer_id) : Prop :=
  ∃ T, timers w !! t = Some T ∧ called T = true.

(** No pending timer holds [h] as its reactor handle. *)
Definition unowned (w : World) (h : handle_id) : Prop :=
  map_Forall (λ _ T, called T = false → _timer T ≠ Some h) (timers w).

(** What running user callables can and cannot change in the heaps. *)
Record cb_step (w w' : World) : Prop := mk_cb_step {
  st_tls : tls w' = tls w;
  st_parent : parent w' = parent w;
  st_running : running w' = running w;
  st_hook : hook w' = hook w;
  st_loops : loops w' = loops w;
  st_next_id : next_id w' = next_id w;
  st_hubs : ∀ h H, hubs w !! h = Some H →
    ∃ H', hubs w' !! h = Some H' ∧ greenlet H' = greenlet H ∧
          loop H' = loop H ∧ _tick_prepare H' = _tick_prepare H ∧
          _tick_idle H' = _tick_idle H ∧
          ∀ s, _timers H = Some s →
               ∃ s', _timers H' = Some s' ∧
                     ∀ t, t ∈ s → timer_called w t → t ∈ s';
  st_timers : ∀ t T', timers w' !! t = Some T' →
    ∃ T, timers w !! t = Some T ∧ (called T = true → T' = T) ∧
         (_timer T' = _timer T ∨ _timer T' = None);
  st_timers_dom : ∀ t T, timers w !! t = Some T → is_Some (timers w' !! t);
  st_handles : ∀ h Hd, handles w !! h = Some Hd → closed Hd = false →
    unowned w h →
    ∃ Hd', handles w' !! h = Some Hd' ∧ closed Hd' = false ∧
           (active Hd = true → active Hd' = true);
}.

(** Timer [t], created with callable [c], is pending: its reactor handle
    [h] is open and its own, and the Hub bound to thread [th] tracks it. *)
Definition timer_pending (w : World) (th : thread) (t : timer_id) (c : callback)
    (h : handle_id) (hub : hub_id) : Prop :=
  timers w !! t = Some (mkTimer false (Some c) (Some h)) ∧
  (∃ Hd, handles w !! h = Some Hd ∧ closed Hd = false) ∧
  map_Forall (λ t' T', _timer T' = Some h → t' = t) (timers w) ∧
  tls w !! th = Some hub ∧
  (∃ H s, hubs w !! hub = Some H ∧ _timers H = Some s ∧ t ∈ s).

(** A pending timer whose handle the reactor may fire. *)
Definition timer_armed (w : World) (th : thread) (t : timer_id) (c : callback)
    (h : handle_id) (hub : hub_id) : Prop :=
  timer_pending w th t c h hub ∧
  ∃ Hd, handles w !! h = Some Hd ∧ active Hd = true ∧ h_cb Hd = CbTimer t.

(** Timer [t] is done: marked, its handle [h] closed and dropped, and no
    longer tracked by [hub]. *)
Definition timer_released (w : World) (t : timer_id) (h : handle_id)
    (hub : hub_id) : Prop :=
  (∃ T, timers w !! t = Some T ∧ called T = true ∧ _timer T = None) ∧
  (∃ Hd, handles w !! h = Some Hd ∧ closed Hd = true) ∧
  (∃ H s, hubs w !! hub = Some H ∧ _timers H = Some s ∧ t ∉ s).

(** A Hub that can take timers: bound to [th], with its loop and timer set,
    and the next two object identities not yet held by any timer. *)
Definition hub_takes_timers (w : World) (th : thread) (hub : hub_id) : Prop :=
  tls w !! th = Some hub ∧
  (∃ H s l, hubs w !! hub = Some H ∧ _timers H = Some s ∧ loop H = Some l) ∧
  map_Forall (λ _ T, _timer T ≠ Some (S (next_id w))) (timers w).

(** The deadline elapsing and a cancel request, in any order and number. *)
Inductive timer_event := Fires | Cancels.

Definition timer_do (t : timer_id) (th : thread) (a : timer_event) : M unit :=
  match a with
  | Fires => _Timer__timer_cb t th
  | Cancels => _Timer_cancel t th
  end.

Fixpoint timer_race (t : timer_id) (th : thread) (l : list timer_event)
    (w : World) : World :=
  match l with
  | [] => w
  | a :: l' => timer_race t th l' (timer_do t th a w).1
  end.

(** The tick machinery of [hub]: turn marker [p] (prepare) with its idle
    companion [i], both open and no timer's handle, the marker armed or
    not, and queue [q]. *)
Definition tick_ready (w : World) (hub : hub_id) (p i : handle_id)
    (q : list callback) (armed : bool) : Prop :=
  p ≠ i ∧
  (∃ H, hubs w !! hub = Some H ∧ _tick_callbacks H = Some q ∧
        _tick_prepare H = Some p ∧ _tick_idle H = Some i) ∧
  (∃ P, handles w !! p = Some P ∧ closed P = false ∧ active P = armed) ∧
  (∃ I, handles w !! i = Some I ∧ closed I = false) ∧
  unowned w p.

Definition queue_of (w : World) (hub : hub_id) : option (list callback) :=
  match hubs w !! hub with
  | Some H => _tick_callbacks H
  | None => None
  end.

(** The callables appended to the tick queue of [hub], oldest first. *)
Definition enqueue_of (hub : hub_id) (ev : event) : option callback :=
  match ev with
  | EvEnqueue h f => if decide (h = hub) then Some f else None
  | _ => None
  end.
Definition enqueued (hub : hub_id) (tr : list event) : list callback :=
  omap (enqueue_of hub) tr.

(** What of the tick machinery outlasts the callables: the Hub with its
    queue [q] and its turn marker [p], open and no timer's handle. *)
Definition tick_live (w : World) (hub : hub_id) (p : handle_id)
    (q : list callback) : Prop :=
  (∃ H, hubs w !! hub = Some H ∧ _tick_callbacks H = Some q ∧
        _tick_prepare H = Some p) ∧
  (∃ P, handles w !! p = Some P ∧ closed P = false) ∧
  unowned w p.

Definition armed (w : World) (p : handle_id) : Prop :=
  ∃ P, handles w !! p = Some P ∧ active P = true.

(** The calls a flush of [hub] on thread [th] makes for the callables [q]. *)
Definition tick_calls (hub : hub_id) (th : thread) (q : list callback)
    : list (call_site * thread * callback) :=
  map (λ f, (SiteTick hub, th, f)) q.

(** The claim as the specification words it: a flush invokes every
    callable of the queue it swapped out. *)
Definition flush_invokes_all (hub : hub_id) (th : thread) (w : World) : Prop :=
  ∀ q, queue_of w hub = Some q →
       calls (trace (Hub__tick_cb hub th w).1) =
       calls (trace w) ++ tick_calls hub th q.

(** The exceptions printed by [traceback.print_exception], oldest first. *)
Definition print_of (ev : event) : option exn :=
  match ev with
  | EvPrintException e => Some e
  | _ => None
  end.
Definition prints (tr : list event) : list exn := omap print_of tr.

(** The claim as the specification words it: the error hook logs every
    error of a [SYSTEM_ERROR] kind. *)
Definition system_error_logged (hub : hub_id) (th : thread) (w : World)
    (e : exn) : Prop :=
  issubclass (exn_typ e) SYSTEM_ERROR = true →
  prints (trace (Hub__handle_error hub e th w).1) = prints (trace w) ++ [e].

(** The current greenlet of thread [th]. *)
Definition current_of (w : World) (th : thread) : fiber_id :=
  default (MainFiber th) (running w !! th).

(** An async handle on which a wake for [func] is pending. *)
Definition wake_pending (w : World) (a : handle_id) (func : callback) : Prop :=
  (∃ Hd, handles w !! a = Some Hd ∧ closed Hd = false ∧ active Hd = true ∧
         h_sent Hd = true ∧ h_cb Hd = CbFromThread func) ∧
  unowned w a.

(** Object identities are handed out in order: a handle held by a timer
    was allocated before [next_id]. *)
Definition ids_fresh (w : World) : Prop :=
  map_Forall (λ _ T, ∀ h, _timer T = Some h → h < next_id w) (timers w).

(** The operations of the module, as the program and the reactor issue
    them, and the worlds they lead to. *)
Inductive api_call :=
| DoHub (th : thread)
| DoDestroy (hub : hub_id) (th : thread)
| DoCallLater (hub : hub_id) (secs : nat) (c : callback)
| DoCallFromThread (hub : hub_id) (func : callback)
| DoNextTick (hub : hub_id) (f : callback)
| DoCancel (t : timer_id) (th : thread)
| DoSwitch (hub : hub_id) (th : thread)
| DoDispatch (h : handle_id) (th : thread).

Definition api_run (o : api_call) (w : World) : World :=
  match o with
  | DoHub th => (Hub_new th w).1
  | DoDestroy hub th => (Hub_destroy hub th w).1
  | DoCallLater hub secs c => (Hub_call_later hub secs c w).1
  | DoCallFromThread hub func => (Hub_call_from_thread hub func w).1
  | DoNextTick hub f => (Hub_next_tick hub f w).1
  | DoCancel t th => (_Timer_cancel t th w).1
  | DoSwitch hub th => (Hub_switch hub th w).1
  | DoDispatch h th => (dispatch h th w).1
  end.

Definition api_runs (os : list api_call) (w : World) : World :=
  foldl (λ w o, api_run o w) w os.

(** ** Worlds to run the code on *)

Definition SomeError : exn := Exn (UserException 0) "boom".

(** A Hub made by thread 0 in an empty process: Hub 0, its greenlet
    [Fiber 1], loop 2, waker 3, signal checker 4, turn marker 5 with idle
    companion 6. *)
Definition w_hub : World := (Hub_new 0 empty_world).1.

Definition hub0 : HubObj :=
  mkHub (Fiber 1) (Some 2) (Some tt) (Some ∅) (Some 3) (Some 4) (Some 5) (Some 6)
        (Some []).

(** The same once the Hub's own greenlet runs. *)
Definition w_in_hub : World := (greenlet_switch 0 (Fiber 1) w_hub).1.

(** After [call_later]: timer 7 with handle 8; its callable cancels the
    timer itself, notes 1 and raises. *)
Definition ring : callback := Then (CallCancel 7) (Then (Note 1) (Throw SomeError)).
Definition w_timer : World := (Hub_call_later 0 5 ring w_hub).1.

(** Two callables queued for the next tick, the first of which raises. *)
Definition w_ticks : World :=
  (for_each [Throw SomeError; Note 2] (Hub_next_tick 0) w_hub).1.

(** A fiber with a [switch_out] hook running on thread 0. *)
Definition w_fiber : World :=
  set_hook <[Fiber 9 := Note 3]>
    (set_running <[0 := Fiber 9]>
       (set_parent_map <[Fiber 9 := MainFiber 0]> w_hub)).

(** A second Hub, 7, made by thread 1. *)
Definition w_two : World := (Hub_new 1 w_hub).1.

(** Hub 0 after [destroy()] on its own thread. *)
Definition w_destroyed : World := (Hub_destroy 0 0 w_hub).1.

(** ** Vocabulary of the further properties *)

(** A Hub object after [destroy()]: all it owned is let go, its greenlet
    stays. *)
Definition destroyed (H : HubObj) : HubObj :=
  mkHub (greenlet H) None None None None None None None None.

(** A run of the reactor that fires the handles [sched] in that order and
    ends at the first error that the loop's hook does not take. *)
Definition run_firing (sched : list handle_id) (l : loop_id) (th : thread)
    : M unit :=
  for_each sched (λ h, dispatch h th).

(** Timer [t] is marked and its handle [h] closed and dropped, yet [hub]
    still tracks it. *)
Definition timer_stale (w : World) (t : timer_id) (h : handle_id)
    (hub : hub_id) : Prop :=
  (∃ T, timers w !! t = Some T ∧ called T = true ∧ _timer T = None) ∧
  (∃ Hd, handles w !! h = Some Hd ∧ closed Hd = true) ∧
  (∃ H s, hubs w !! hub = Some H ∧ _timers H = Some s ∧ t ∈ s).

(** What a handle is for good: its kind and its loop. *)
Definition handle_sig (Hd : Handle) : handle_kind * loop_id :=
  (h_kind Hd, h_loop Hd).

(** A step that makes no handle, leaves every handle its kind and loop and
    every loop its hook, and prints nothing. *)
Record quiet (w w' : World) : Prop := mk_quiet {
  q_sig : ∀ h, handle_sig <$> handles w' !! h = handle_sig <$> handles w !! h;
  q_loops : loops w' = loops w;
  q_prints : prints (trace w') = prints (trace w);
}.

(** A computation every run of which is a step of [R]. *)
Definition preserves (R : World → World → Prop) {A} (m : M A) : Prop :=
  ∀ w, R w (m w).1.

(** The callbacks a handle of kind [k] can carry. *)
Definition cb_fits (k : handle_kind) (c : handle_cb) : Prop :=
  match c with
  | CbUnset => True
  | CbWakerNoop | CbFromThread _ => k = HAsync
  | CbTimer _ => k = HTimer
  | CbTick _ => k = HPrepare
  | CbIdleStop => k = HIdle
  end.

(** Hub [hub], with loop [l], is in working order: the loop reports to it,
    its queue and timer set are there, its turn marker and idle companion
    are open handles of its loop, the marker carries [_tick_cb] when armed,
    and it is armed whenever the queue is not empty. *)
Definition hub_live (w : World) (hub : hub_id) (H : HubObj) (l : loop_id)
    : Prop :=
  loops w !! l = Some (mkLoop (Some hub)) ∧
  ∃ q s p i P I,
    _tick_callbacks H = Some q ∧ _timers H = Some s ∧
    _tick_prepare H = Some p ∧ _tick_idle H = Some i ∧
    handles w !! p = Some P ∧ handle_sig P = (HPrepare, l) ∧
    closed P = false ∧
    (active P = true → h_cb P = CbTick hub) ∧
    (q ≠ [] → active P = true) ∧
    handles w !! i = Some I ∧ handle_sig I = (HIdle, l) ∧ closed I = false.

(** What holds of every world the operations lead to: handles, loops and
    Hubs were allocated before [next_id], a handle carries a callback of
    its kind, a Hub is either in working order or fully let go, a Hub
    bound to a thread is in working order and bound to no other thread,
    and the handle of a timer is a timer handle. *)
Record wf (w : World) : Prop := mk_wf {
  wf_handles : ∀ h Hd, handles w !! h = Some Hd →
    h < next_id w ∧ cb_fits (h_kind Hd) (h_cb Hd);
  wf_loops : ∀ l L, loops w !! l = Some L → l < next_id w;
  wf_hub_ids : ∀ k H, hubs w !! k = Some H → k < next_id w;
  wf_hubs : ∀ k H, hubs w !! k = Some H →
    match loop H with
    | Some l => hub_live w k H l
    | None => H = destroyed H
    end;
  wf_bound : ∀ th hub, tls w !! th = Some hub →
    ∃ H l, hubs w !! hub = Some H ∧ loop H = Some l;
  wf_one_thread : ∀ th1 th2 hub,
    tls w !! th1 = Some hub → tls w !! th2 = Some hub → th1 = th2;
  wf_timers : ∀ t T h, timers w !! t = Some T → _timer T = Some h →
    ∃ Hd, handles w !! h = Some Hd ∧ h_kind Hd = HTimer;
}.

(** A step that carries an invariant over. *)
Definition carries (I : World → Prop) (w w' : World) : Prop := I w → I w'.


(** The world [Hub()] makes on a thread that has no Hub. *)
Definition hub_made (th : thread) (w : World) : World :=
  let n := next_id w in
  mkWorld (<[th := n]> (tls w))
    (<[n := mkHub (Fiber (1 + n)) (Some (2 + n)) (Some tt) (Some ∅)
                  (Some (3 + n)) (Some (4 + n)) (Some (5 + n)) (Some (6 + n))
                  (Some [])]> (hubs w))
    (timers w)
    (<[6 + n := mkHandle HIdle (2 + n) CbUnset false false true false]>
       (<[5 + n := mkHandle HPrepare (2 + n) CbUnset false false true false]>
          (<[4 + n := mkHandle HSignalChecker (2 + n) CbUnset false false true false]>
             (<[3 + n := mkHandle HAsync (2 + n) CbWakerNoop true false false false]>
                (handles w)))))
    (<[2 + n := mkLoop (Some n)]> (loops w))
    (<[Fiber (1 + n) := current_of w th]> (parent w))
    (hook w) (running w) (7 + n) (trace w).

(** ** Stepping through monadic code *)

(** Unfold the methods down to the state transformer. *)
Ltac munfold :=
  unfold Hub_new, Hub___init__, Hub_destroy, Hub__cleanup_loop, Hub_next_tick,
    Hub_call_later, Hub_call_from_thread, Hub__tick_cb, Hub__handle_error,
    Hub_switch, Hub_switch_out, call_from_thread__cb, call,
    _Timer___init__, _Timer_cancel, _Timer__timer_cb, _Timer__timer_cb_finally,
    timers_remove,
    get_hub, hub_obj, timer_obj, put_hub, put_timer, Waker___init__,
    greenlet_new, greenlet_set_parent, greenlet_switch, greenlet_throw,
    get_current,
    pyuv.Loop, pyuv.Async, pyuv.Timer, pyuv.Prepare, pyuv.Idle,
    pyuv.SignalChecker, pyuv.new_handle, pyuv.start, pyuv.stop, pyuv.close,
    pyuv.unref, pyuv.send, pyuv.open_handle, pyuv.get_handle, pyuv.put_handle,
    pyuv.set_excepthook, pyuv.walk_close, pyuv.run_drained,
    try_finally, try_except_pass,
    alloc, deref, not_none, bind, get, ret, raise, modify, emit in *.

(** Case on the innermost thing the code branches on, reusing what is
    known about it. *)
Ltac mcase :=
  match goal with
  | |- context [match ?x with _ => _ end] =>
      lazymatch x with
      | context [match _ with _ => _ end] => fail
      | _ => first [ match goal with E : x = _ |- _ => rewrite E end
                   | destruct x eqn:? ]
      end
  end.

Ltac mrw :=
  match goal with
  | |- context [match ?x with _ => _ end] =>
      lazymatch x with
      | context [match _ with _ => _ end] => fail
      | _ => match goal with E : x = _ |- _ => rewrite E end
      end
  end.

(** Run the code forward with the facts at hand. *)
Ltac mrun :=
  repeat (cbn -[in_chain]; rewrite ?lookup_insert_eq;
          try (rewrite lookup_insert_ne by done); try mrw).

(** Explore every path of the code. *)
Ltac msteps := repeat (cbn -[in_chain]; rewrite ?lookup_insert_eq; try mcase).

(** ** What running a callable preserves *)

Lemma calls_app tr1 tr2 : calls (tr1 ++ tr2) = calls tr1 ++ calls tr2.
Proof. apply omap_app. Qed.

Lemma cb_step_refl w : cb_step w w.
Proof.
  split; try done.
  - intros h H E. exists H. repeat split; try done. intros s Es. exists s. done.
  - intros t T' E. exists T'. auto.
  - intros h Hd E Hc Hu. exists Hd. auto.
Qed.

Lemma cb_step_unowned w w' h : cb_step w w' → unowned w h → unowned w' h.
Proof.
  intros S U t T1 E1 Hc1.
  destruct (st_timers _ _ S _ _ E1) as (T & E & Hk & Hh).
  destruct (called T) eqn:Ec.
  - specialize (Hk eq_refl). subst T1. congruence.
  - specialize (U _ _ E Ec). destruct Hh as [-> | ->]; done.
Qed.

Lemma cb_step_called w w' t : cb_step w w' → timer_called w t → timer_called w' t.
Proof.
  intros S (T & E & Hc).
  destruct (st_timers_dom _ _ S _ _ E) as [T' E'].
  destruct (st_timers _ _ S _ _ E') as (T0 & E0 & Hk & _).
  assert (T0 = T) as -> by congruence.
  specialize (Hk Hc). subst T'. by exists T.
Qed.

Lemma cb_step_trans w1 w2 w3 : cb_step w1 w2 → cb_step w2 w3 → cb_step w1 w3.
Proof.
  intros A B. split.
  - rewrite (st_tls _ _ B). apply A.
  - rewrite (st_parent _ _ B). apply A.
  - rewrite (st_running _ _ B). apply A.
  - rewrite (st_hook _ _ B). apply A.
  - rewrite (st_loops _ _ B). apply A.
  - rewrite (st_next_id _ _ B). apply A.
  - intros h H E.
    destruct (st_hubs _ _ A _ _ E) as (H1 & E1 & g1 & l1 & p1 & i1 & s1).
    destruct (st_hubs _ _ B _ _ E1) as (H2 & E2 & g2 & l2 & p2 & i2 & s2).
    exists H2. repeat split; try congruence.
    intros s Es. destruct (s1 _ Es) as (sa & Ea & Ia).
    destruct (s2 _ Ea) as (sb & Eb & Ib).
    exists sb. split; [done|]. intros t Ht Hc.
    apply Ib; [by apply Ia|]. by eapply cb_step_called.
  - intros t T3 E3.
    destruct (st_timers _ _ B _ _ E3) as (T2 & E2 & k2 & h2).
    destruct (st_timers _ _ A _ _ E2) as (T1 & E1 & k1 & h1).
    exists T1. split; [done|]. split.
    + intros Hc. specialize (k1 Hc). subst T2. apply k2. done.
    + destruct h2 as [-> | ->]; auto.
  - intros t T E. destruct (st_timers_dom _ _ A _ _ E) as [T2 E2].
    by eapply st_timers_dom.
  - intros h Hd E Hc Hu.
    destruct (st_handles _ _ A _ _ E Hc Hu) as (Hd2 & E2 & c2 & a2).
    destruct (st_handles _ _ B _ _ E2 c2 (cb_step_unowned _ _ _ A Hu))
      as (Hd3 & E3 & c3 & a3).
    exists Hd3. auto.
Qed.

#[global] Instance cb_step_preorder : PreOrder cb_step.
Proof. split; [exact cb_step_refl | exact cb_step_trans]. Qed.

(** Elementary updates that a callable may make. *)

Lemma step_emit e w : cb_step w (set_trace (λ t, t ++ [e]) w).
Proof.
  destruct (cb_step_refl w). by split.
Qed.

Lemma step_tick_callbacks self H q w :
  hubs w !! self = Some H →
  cb_step w (set_hubs <[self := with_tick_callbacks q H]> w).
Proof.
  intros E. destruct (cb_step_refl w). split; try done.
  intros h H0 E0. cbn. destruct (decide (self = h)) as [->|Hne].
  - rewrite lookup_insert_eq. assert (H0 = H) as -> by congruence.
    eexists. split; [done|]. repeat split; try done.
    intros s Es. exists s. done.
  - rewrite lookup_insert_ne by done. eauto.
Qed.

Lemma step_handle h Hd Hd' w :
  handles w !! h = Some Hd →
  closed Hd' = false →
  (active Hd = true → active Hd' = true) →
  cb_step w (set_handles <[h := Hd']> w).
Proof.
  intros E Hc Ha. destruct (cb_step_refl w). split; try done.
  intros h0 Hd0 E0 Hc0 Hu. cbn. destruct (decide (h = h0)) as [->|Hne].
  - rewrite lookup_insert_eq. assert (Hd0 = Hd) as -> by congruence. eauto.
  - rewrite lookup_insert_ne by done. eauto.
Qed.

Lemma next_tick_step self f w : cb_step w (Hub_next_tick self f w).1.
Proof.
  munfold. msteps.
  all: try apply cb_step_refl.
  all: repeat first
    [ by eapply step_tick_callbacks
    | (eapply cb_step_trans; [|apply step_emit])
    | (eapply cb_step_trans; [|eapply step_handle; [cbn; try rewrite lookup_insert_ne by congruence; eassumption| done | done]]) ].
Qed.

(** The worlds [cancel] can leave behind when it finds the timer pending. *)
Lemma cancel_shape w w' t T T' :
  timers w !! t = Some T → called T = false →
  (_timer T' = _timer T ∨ _timer T' = None) →
  tls w' = tls w → parent w' = parent w → running w' = running w →
  hook w' = hook w → loops w' = loops w → next_id w' = next_id w →
  timers w' = <[t := T']> (timers w) →
  (handles w' = handles w ∨
   ∃ h Hd', _timer T = Some h ∧ handles w' = <[h := Hd']> (handles w)) →
  (hubs w' = hubs w ∨
   ∃ u H s, hubs w !! u = Some H ∧ _timers H = Some s ∧
            hubs w' = <[u := with_timers (Some (s ∖ {[t]})) H]> (hubs w)) →
  cb_step w w'.
Proof.
  intros E Hc Hh Q1 Q2 Q3 Q4 Q5 Q6 Et Eh Eu. split; try done.
  - intros h Hb E0. destruct Eu as [-> | (u & H & s & Eu & Es & ->)].
    { exists Hb. repeat split; try done. intros s Es. by exists s. }
    destruct (decide (u = h)) as [->|Hne].
    + rewrite lookup_insert_eq. assert (Hb = H) as -> by congruence.
      eexists. split; [done|]. repeat split; try done.
      intros s0 Es0. cbn. eexists. split; [done|].
      assert (s0 = s) as -> by congruence.
      intros t0 Ht0 (T0 & ET0 & Hc0).
      apply elem_of_difference. split; [done|].
      intros ->%elem_of_singleton. congruence.
    + rewrite lookup_insert_ne by done. exists Hb.
      repeat split; try done. intros s0 Es0. by exists s0.
  - intros t0 T0 E0. rewrite Et in E0.
    destruct (decide (t = t0)) as [->|Hne].
    + rewrite lookup_insert_eq in E0. injection E0 as <-.
      exists T. split; [done|]. split; [congruence|done].
    + rewrite lookup_insert_ne in E0 by done. exists T0. auto.
  - intros t0 T0 E0. rewrite Et.
    destruct (decide (t = t0)) as [->|Hne].
    + rewrite lookup_insert_eq. eauto.
    + rewrite lookup_insert_ne by done. eauto.
  - intros h0 Hd0 E0 Hc0 Hu.
    destruct Eh as [-> | (h & Hd' & Eh & ->)]; [eauto|].
    specialize (Hu _ _ E Hc).
    rewrite lookup_insert_ne by congruence. eauto.
Qed.

Lemma cancel_step self th w : cb_step w (_Timer_cancel self th w).1.
Proof.
  munfold. msteps.
  all: try apply cb_step_refl.
  all: try discriminate.
  all: eapply cancel_shape; try eassumption; try reflexivity; cbn;
    rewrite ?insert_insert_eq; try reflexivity; eauto 10.
Qed.

Lemma run_cb_step th c w : cb_step w (run_cb th c w).1.
Proof.
  revert w. induction c as [tag|e|h f _|t|a IHa b IHb]; intros w; cbn.
  - apply step_emit.
  - apply cb_step_refl.
  - apply next_tick_step.
  - apply cancel_step.
  - unfold bind. specialize (IHa w).
    destruct (run_cb th a w) as [w1 [[]|e]]; cbn in *; [|done].
    eapply cb_step_trans; [done|]. apply IHb.
Qed.

Lemma call_step site th c w : cb_step w (call site th c w).1.
Proof.
  eapply cb_step_trans; [apply (step_emit (EvCall site th c))|].
  apply run_cb_step.
Qed.

Lemma for_each_call_step site th q : ∀ w,
  cb_step w (for_each q (call site th) w).1.
Proof.
  induction q as [|f q IH]; intros w; cbn; [apply cb_step_refl|].
  unfold bind. pose proof (call_step site th f w) as S.
  destruct (call site th f w) as [w1 [[]|e]]; cbn in *; [|done].
  eapply cb_step_trans; [done|]. apply IH.
Qed.

(** Running a callable never enters another one. *)
Lemma next_tick_calls self f w :
  calls (trace (Hub_next_tick self f w).1) = calls (trace w).
Proof.
  munfold. msteps; try done.
  all: rewrite ?calls_app; cbn; by rewrite ?app_nil_r.
Qed.

Lemma cancel_calls t th w :
  calls (trace (_Timer_cancel t th w).1) = calls (trace w).
Proof. munfold. msteps; done. Qed.

Lemma run_cb_calls th c : ∀ w, calls (trace (run_cb th c w).1) = calls (trace w).
Proof.
  induction c as [tag|e|h f _|t|a IHa b IHb]; intros w; cbn.
  - rewrite calls_app. cbn. apply app_nil_r.
  - done.
  - apply next_tick_calls.
  - apply cancel_calls.
  - unfold bind. specialize (IHa w).
    destruct (run_cb th a w) as [w1 [[]|e]]; cbn in *; [|done].
    by rewrite IHb.
Qed.

Lemma call_unfold site th c w :
  call site th c w = run_cb th c (set_trace (λ t, t ++ [EvCall site th c]) w).
Proof. reflexivity. Qed.

Lemma call_calls site th c w :
  calls (trace (call site th c w).1) = calls (trace w) ++ [(site, th, c)].
Proof.
  rewrite call_unfold, run_cb_calls.
  cbn. by rewrite calls_app.
Qed.

Lemma trace_prefix_next_tick self f w :
  trace w `prefix_of` trace (Hub_next_tick self f w).1.
Proof.
  munfold. msteps; try done.
  all: rewrite <- ?app_assoc; by apply prefix_app_r.
Qed.

Lemma trace_cancel t th w : trace (_Timer_cancel t th w).1 = trace w.
Proof. munfold. msteps; done. Qed.

Lemma run_cb_trace th c : ∀ w, trace w `prefix_of` trace (run_cb th c w).1.
Proof.
  induction c as [tag|e|h f _|t|a IHa b IHb]; intros w; cbn.
  - by apply prefix_app_r.
  - done.
  - apply trace_prefix_next_tick.
  - by rewrite trace_cancel.
  - unfold bind. specialize (IHa w).
    destruct (run_cb th a w) as [w1 [[]|e]]; cbn in *; [|done].
    etrans; [done|]. apply IHb.
Qed.

(** ** Construction and teardown *)

Lemma init_ok self th w :
  tls w !! th = None →
  ∃ w', Hub___init__ self th w = (w', Ok tt) ∧ tls w' = <[th := self]> (tls w).
Proof.
  intros Hn. munfold. mrun. eexists. split; reflexivity.
Qed.

Lemma destroy_ok_unbinds self th w w' :
  Hub_destroy self th w = (w', Ok tt) →
  tls w !! th = Some self ∧ tls w' = delete th (tls w).
Proof.
  revert w'.
  assert (G : match Hub_destroy self th w with
              | (w', Ok _) => tls w !! th = Some self ∧ tls w' = delete th (tls w)
              | _ => True
              end).
  { munfold. msteps; try done. subst. done. }
  intros w' E. by rewrite E in G.
Qed.

Lemma w_hub_is : Hub_new 0 empty_world = (w_hub, Ok 0) ∧ hubs w_hub !! 0 = Some hub0.
Proof. split; vm_compute; reflexivity. Qed.

(** C1.  While a Hub is bound to the thread, constructing another one
    raises RuntimeError and changes neither the binding nor anything else;
    after a [destroy()] that returned, the thread has no binding and
    [Hub()] succeeds on it, binding the new Hub. *)
Theorem hub_singleton w th :
  (∀ h self, tls w !! th = Some h →
     Hub___init__ self th w =
       (w, Raise (Exn RuntimeError "cannot instantiate more than one Hub per thread")) ∧
     (Hub_new th w).2 =
       Raise (Exn RuntimeError "cannot instantiate more than one Hub per thread") ∧
     tls (Hub_new th w).1 = tls w) ∧
  (∀ self w', Hub_destroy self th w = (w', Ok tt) →
     tls w' !! th = None ∧
     ∃ w'', Hub_new th w' = (w'', Ok (next_id w')) ∧
            tls w'' !! th = Some (next_id w')).
Proof.
  split.
  - intros h self E. munfold. mrun. done.
  - intros self w' E. apply destroy_ok_unbinds in E as (_ & Et).
    assert (En : tls w' !! th = None) by (rewrite Et; apply lookup_delete_eq).
    split; [done|].
    unfold Hub_new, alloc, bind, ret.
    destruct (init_ok (next_id w') th (set_next_id (S (next_id w')) w') En)
      as (w'' & Ei & Etls).
    rewrite Ei. cbn. exists w''. split; [done|].
    rewrite Etls. cbn. apply lookup_insert_eq.
Qed.

Lemma hub_singleton_witness :
  tls w_hub !! 0 = Some 0 ∧
  Hub_destroy 0 0 w_hub = (w_destroyed, Ok tt) ∧
  (Hub_new 0 w_hub).2 =
    Raise (Exn RuntimeError "cannot instantiate more than one Hub per thread") ∧
  tls w_destroyed !! 0 = None ∧
  ∃ w2, Hub_new 0 w_destroyed = (w2, Ok (next_id w_destroyed)) ∧
        tls w2 !! 0 = Some (next_id w_destroyed).
Proof.
  assert (Hb : tls w_hub !! 0 = Some 0) by (vm_compute; reflexivity).
  assert (Hd : Hub_destroy 0 0 w_hub = (w_destroyed, Ok tt))
    by (vm_compute; reflexivity).
  destruct (hub_singleton w_hub 0) as (A & B).
  destruct (A 0 7 Hb) as (_ & A2 & _).
  destruct (B 0 w_destroyed Hd) as (B1 & B2).
  repeat (split; [assumption|]). assumption.
Defined.

(** C9.  [destroy()] raises RuntimeError with no Hub bound to the calling
    thread, and when the Hub bound to it is another one; in both cases the
    world is left exactly as it was. *)
Theorem destroy_refuses w th self :
  (tls w !! th = None →
     Hub_destroy self th w = (w, Raise (Exn RuntimeError "hub is already destroyed"))) ∧
  (∀ other, tls w !! th = Some other → other ≠ self →
     Hub_destroy self th w =
       (w, Raise (Exn RuntimeError
         "destroy() can only be called from the same thread were the hub was created"))).
Proof.
  split.
  - intros E. munfold. mrun. done.
  - intros other E Hne. munfold. mrun. rewrite decide_False by done. done.
Qed.

Lemma destroy_refuses_witness :
  tls w_two !! 0 = Some 0 ∧ 0 ≠ 7 ∧ tls w_two !! 2 = None ∧
  Hub_destroy 7 0 w_two =
    (w_two, Raise (Exn RuntimeError
      "destroy() can only be called from the same thread were the hub was created")) ∧
  Hub_destroy 7 2 w_two = (w_two, Raise (Exn RuntimeError "hub is already destroyed")).
Proof.
  assert (H1 : tls w_two !! 0 = Some 0) by (vm_compute; reflexivity).
  assert (H2 : 0 ≠ 7) by lia.
  assert (H3 : tls w_two !! 2 = None) by (vm_compute; reflexivity).
  repeat (split; [assumption|]).
  split.
  - exact (proj2 (destroy_refuses w_two 0 7) 0 H1 H2).
  - exact (proj1 (destroy_refuses w_two 2 7) H3).
Defined.

(** C10.  [get_hub()] raises RuntimeError on a thread with no Hub bound,
    be it that none was made or that it was destroyed, and otherwise
    returns the Hub bound to the thread, such as the one just made. *)
Theorem get_hub_bound_or_raises w th :
  (tls w !! th = None →
     get_hub th w =
       (w, Raise (Exn RuntimeError "there is no hub created in the current thread"))) ∧
  (∀ hub, tls w !! th = Some hub → get_hub th w = (w, Ok hub)) ∧
  (∀ w' hub, Hub_new th w = (w', Ok hub) → get_hub th w' = (w', Ok hub)) ∧
  (∀ self w', Hub_destroy self th w = (w', Ok tt) →
     get_hub th w' =
       (w', Raise (Exn RuntimeError "there is no hub created in the current thread"))).
Proof.
  split; [|split; [|split]].
  - intros E. munfold. mrun. done.
  - intros hub E. munfold. mrun. done.
  - intros w' hub E.
    assert (Et : tls w' !! th = Some hub).
    { unfold Hub_new, alloc, bind, ret in E.
      destruct (tls w !! th) as [h|] eqn:En.
      - exfalso. revert E. munfold. mrun. done.
      - destruct (init_ok (next_id w) th (set_next_id (S (next_id w)) w) En)
          as (w2 & Ei & Etls).
        rewrite Ei in E. cbn in E. injection E as <- <-.
        rewrite Etls. apply lookup_insert_eq. }
    munfold. mrun. done.
  - intros self w' E. apply destroy_ok_unbinds in E as (_ & Et).
    assert (En : tls w' !! th = None) by (rewrite Et; apply lookup_delete_eq).
    munfold. mrun. done.
Qed.

Lemma get_hub_bound_or_raises_witness :
  tls empty_world !! 0 = None ∧ tls w_hub !! 0 = Some 0 ∧
  get_hub 0 empty_world =
    (empty_world,
     Raise (Exn RuntimeError "there is no hub created in the current thread")) ∧
  get_hub 0 w_hub = (w_hub, Ok 0).
Proof.
  assert (H1 : tls empty_world !! 0 = None) by reflexivity.
  assert (H2 : tls w_hub !! 0 = Some 0) by (vm_compute; reflexivity).
  repeat (split; [assumption|]).
  split.
  - exact (proj1 (get_hub_bound_or_raises empty_world 0) H1).
  - exact (proj1 (proj2 (get_hub_bound_or_raises w_hub 0)) 0 H2).
Defined.

(** ** Timers *)

Lemma timer_cb_finally_ok w th t c h hub Hd H s :
  timers w !! t = Some (mkTimer true (Some c) (Some h)) →
  handles w !! h = Some Hd → closed Hd = false →
  tls w !! th = Some hub →
  hubs w !! hub = Some H → _timers H = Some s → t ∈ s →
  ∃ w', _Timer__timer_cb_finally t th w = (w', Ok tt) ∧
        trace w' = trace w ∧
        timers w' !! t = Some (mkTimer true None None) ∧
        timer_released w' t h hub.
Proof.
  intros ET EH Hop Etls EHub Es Hin.
  munfold. rewrite ET. cbn. rewrite EH. cbn. rewrite Hop. cbn.
  rewrite lookup_insert_eq.
  cbn. rewrite Etls. cbn. rewrite EHub. cbn.
  rewrite Es. cbn. rewrite decide_True by done. cbn.
  eexists. split; [reflexivity|]. cbn. rewrite insert_insert_eq.
  split; [done|]. split; [by rewrite lookup_insert_eq|].
  unfold timer_released. cbn. rewrite !lookup_insert_eq. cbn.
  repeat split.
  - by eexists.
  - by eexists.
  - eexists _, _. split; [done|]. split; [done|].
    intros (_ & Hn)%elem_of_difference. apply Hn. by apply elem_of_singleton.
Qed.

Lemma timer_cb_fires w th t c h hub :
  timer_pending w th t c h hub →
  ∃ w' r,
    _Timer__timer_cb t th w = (w', r) ∧
    r = (call (SiteTimer t) th c
           (set_timers <[t := mkTimer true (Some c) (Some h)]> w)).2 ∧
    calls (trace w') = calls (trace w) ++ [(SiteTimer t, th, c)] ∧
    timers w' !! t = Some (mkTimer true None None) ∧
    timer_released w' t h hub.
Proof.
  intros (ET & (Hd & EH & Hop) & Hown & Etls & (H & s & EHub & Es & Hin)).
  unfold _Timer__timer_cb, timer_obj, put_timer, bind, get, deref, ret, modify,
    try_finally.
  rewrite ET. cbn. rewrite lookup_insert_eq. cbn.
  set (w0 := set_timers _ w).
  unfold call, emit, bind, modify.
  set (w1 := set_trace _ w0).
  pose proof (run_cb_step th c w1) as S.
  destruct (run_cb th c w1) as [w2 r] eqn:Erun. cbn in S.
  assert (ET1 : timers w1 !! t = Some (mkTimer true (Some c) (Some h))).
  { cbn. by rewrite lookup_insert_eq. }
  assert (ET2 : timers w2 !! t = Some (mkTimer true (Some c) (Some h))).
  { destruct (st_timers_dom _ _ S _ _ ET1) as [T2 E2].
    destruct (st_timers _ _ S _ _ E2) as (T1 & E1 & Hk & _).
    rewrite ET1 in E1. injection E1 as <-. by rewrite E2, (Hk eq_refl). }
  assert (U1 : unowned w1 h).
  { intros t' T' E' Hc'. cbn in E'.
    destruct (decide (t = t')) as [<-|Hne].
    - rewrite lookup_insert_eq in E'. by injection E' as <-.
    - rewrite lookup_insert_ne in E' by done. intros Eh.
      by specialize (Hown _ _ E' Eh). }
  destruct (st_handles _ _ S h Hd EH Hop U1) as (Hd2 & EH2 & Hop2 & _).
  destruct (st_hubs _ _ S hub H EHub) as (H2 & EHub2 & _ & _ & _ & _ & Hs2).
  destruct (Hs2 _ Es) as (s2 & Es2 & Hin2).
  assert (Hin' : t ∈ s2).
  { apply Hin2; [done|]. eexists. split; [exact ET1|done]. }
  assert (Etls2 : tls w2 !! th = Some hub) by (by rewrite (st_tls _ _ S)).
  destruct (timer_cb_finally_ok _ _ _ _ _ _ _ _ _ ET2 EH2 Hop2 Etls2 EHub2 Es2 Hin')
    as (w3 & Efin & Etr & ET3 & Hrel).
  cbn. rewrite Efin. exists w3, r. split; [by destruct r|].
  split; [done|]. split; [|done].
  rewrite Etr. pose proof (run_cb_calls th c w1) as Hcalls.
  rewrite Erun in Hcalls. cbn in Hcalls. rewrite Hcalls. unfold w1. cbn.
  by rewrite calls_app.
Qed.

Lemma timer_calls_app t tr1 tr2 :
  timer_calls t (tr1 ++ tr2) = timer_calls t tr1 + timer_calls t tr2.
Proof.
  unfold timer_calls. by rewrite calls_app, filter_app, length_app.
Qed.

Lemma timer_calls_calls t tr1 tr2 :
  calls tr1 = calls tr2 → timer_calls t tr1 = timer_calls t tr2.
Proof. unfold timer_calls. by intros ->. Qed.

Lemma timer_calls_snoc t tr tr' th c :
  calls tr' = calls tr ++ [(SiteTimer t, th, c)] →
  timer_calls t tr' = S (timer_calls t tr).
Proof.
  unfold timer_calls. intros ->. rewrite filter_app, length_app.
  rewrite filter_cons_True by done. cbn. lia.
Qed.

Lemma cancel_called w th t T :
  timers w !! t = Some T → called T = true → _Timer_cancel t th w = (w, Ok tt).
Proof. intros E Hc. munfold. rewrite E. cbn. by rewrite Hc. Qed.

Lemma timer_cb_called w th t T :
  timers w !! t = Some T → called T = true →
  _Timer__timer_cb t th w = (w, Ok tt).
Proof. intros E Hc. munfold. rewrite E. cbn. by rewrite Hc. Qed.

Lemma cancel_pending w th t c h hub :
  timer_pending w th t c h hub →
  ∃ w', _Timer_cancel t th w = (w', Ok tt) ∧
        trace w' = trace w ∧
        timers w' !! t = Some (mkTimer true (Some c) None) ∧
        timer_released w' t h hub.
Proof.
  intros (ET & (Hd & EH & Hop) & Hown & Etls & (H & s & EHub & Es & Hin)).
  munfold. rewrite ET. cbn. rewrite EH. cbn. rewrite Hop. cbn.
  rewrite lookup_insert_eq. cbn. rewrite Etls. cbn. rewrite EHub. cbn.
  rewrite Es. cbn. rewrite decide_True by done. cbn.
  eexists. split; [reflexivity|]. cbn. rewrite insert_insert_eq.
  split; [done|]. split; [by rewrite lookup_insert_eq|].
  unfold timer_released. cbn. rewrite !lookup_insert_eq. cbn.
  repeat split.
  - by eexists.
  - by eexists.
  - eexists _, _. split; [done|]. split; [done|].
    intros (_ & Hn)%elem_of_difference. apply Hn. by apply elem_of_singleton.
Qed.

Lemma timer_race_called w th t T l :
  timers w !! t = Some T → called T = true → timer_race t th l w = w.
Proof.
  intros E Hc. induction l as [|a l IH]; [done|]. cbn.
  destruct a; cbn.
  - by rewrite (timer_cb_called _ _ _ _ E Hc).
  - by rewrite (cancel_called _ _ _ _ E Hc).
Qed.

Lemma call_later_arms w th hub secs c :
  hub_takes_timers w th hub →
  ∃ w', Hub_call_later hub secs c w = (w', Ok (next_id w)) ∧
        trace w' = trace w ++ [EvStart (S (next_id w))] ∧
        timer_armed w' th (next_id w) c (S (next_id w)) hub.
Proof.
  intros (Etls & (H & s & l & EHub & Es & El) & Hfresh).
  munfold. cbn. rewrite EHub. cbn. rewrite Es. cbn. rewrite El. cbn.
  rewrite !lookup_insert_eq. cbn. rewrite !lookup_insert_eq. cbn.
  eexists. split; [reflexivity|]. cbn. split; [done|].
  unfold timer_armed, timer_pending. cbn.
  rewrite insert_insert_eq, !lookup_insert_eq.
  repeat split; try done.
  - by eexists.
  - intros t' T' E' Eh.
    destruct (decide (next_id w = t')) as [|Hne]; [done|].
    rewrite lookup_insert_ne in E' by done.
    by destruct (Hfresh _ _ E').
  - eexists _, _. split; [done|]. split; [done|]. set_solver.
  - by eexists.
Qed.

Lemma fire_timer w th t c h hub :
  timer_armed w th t c h hub →
  ∃ w' r wc,
    fire h th w = (w', r) ∧
    timers wc !! t = Some (mkTimer true (Some c) (Some h)) ∧
    r = (run_cb th c wc).2 ∧
    calls (trace w') = calls (trace w) ++ [(SiteTimer t, th, c)] ∧
    timers w' !! t = Some (mkTimer true None None) ∧
    timer_released w' t h hub.
Proof.
  intros (Hp & (Hd & EH & Hact & Hcb)).
  pose proof Hp as (ET & (Hd' & EH' & Hop) & Hown & Etls & Hhub).
  assert (Hd' = Hd) as -> by congruence.
  unfold fire, pyuv.get_handle, pyuv.put_handle, bind, get, deref, ret, modify.
  rewrite EH. cbn. rewrite Hop, Hact, Hcb. cbn.
  set (w0 := set_handles _ w).
  assert (Hp0 : timer_pending w0 th t c h hub).
  { repeat split; try done. eexists. cbn. rewrite lookup_insert_eq. done. }
  destruct (timer_cb_fires _ _ _ _ _ _ Hp0) as (w' & r & E & Er & Ec & ET' & Hrel).
  rewrite E. exists w', r. eexists. split; [done|].
  split; [|split; [exact Er|done]].
  cbn. by rewrite lookup_insert_eq.
Qed.

Lemma fire_closed w th h Hd :
  handles w !! h = Some Hd → closed Hd = true → fire h th w = (w, Ok tt).
Proof.
  intros E Hc. unfold fire, pyuv.get_handle, bind, get, deref, ret.
  rewrite E. cbn. by rewrite Hc.
Qed.

(** C2.  A timer made by [call_later] on a Hub that takes timers is armed.
    When the reactor fires an armed timer, it is marked called before its
    callable is entered, the callable is entered exactly once, and
    afterwards the timer is marked, its handle closed and dropped and the
    timer gone from the Hub's set, whether the callable returned or raised;
    the outcome is the callable's.  Firing it again changes nothing. *)
Theorem timer_fires_once w th hub secs c :
  hub_takes_timers w th hub →
  ∃ w1 t h,
    Hub_call_later hub secs c w = (w1, Ok t) ∧
    timer_armed w1 th t c h hub ∧
    ∀ w2, timer_armed w2 th t c h hub →
      ∃ w3 r wc,
        fire h th w2 = (w3, r) ∧
        timers wc !! t = Some (mkTimer true (Some c) (Some h)) ∧
        r = (run_cb th c wc).2 ∧
        calls (trace w3) = calls (trace w2) ++ [(SiteTimer t, th, c)] ∧
        timer_calls t (trace w3) = S (timer_calls t (trace w2)) ∧
        timers w3 !! t = Some (mkTimer true None None) ∧
        timer_released w3 t h hub ∧
        fire h th w3 = (w3, Ok tt) ∧
        _Timer__timer_cb t th w3 = (w3, Ok tt).
Proof.
  intros Hh. destruct (call_later_arms _ _ _ secs c Hh) as (w1 & E & _ & A).
  exists w1, (next_id w), (S (next_id w)). split; [done|]. split; [done|].
  intros w2 A2.
  destruct (fire_timer _ _ _ _ _ _ A2) as (w3 & r & wc & Ef & Ewc & Er & Ec & ET & Hrel).
  exists w3, r, wc. repeat (split; [done|]).
  split; [by eapply timer_calls_snoc|]. split; [done|]. split; [done|].
  split.
  - destruct Hrel as (_ & (Hd & EH & Hcl) & _). by eapply fire_closed.
  - by eapply timer_cb_called.
Qed.

Lemma timer_fires_once_witness :
  hub_takes_timers w_hub 0 0 ∧
  ∃ w1 t h, Hub_call_later 0 5 ring w_hub = (w1, Ok t) ∧
            timer_armed w1 0 t ring h 0.
Proof.
  assert (Hh : hub_takes_timers w_hub 0 0).
  { split; [vm_compute; reflexivity|]. split; [|compute_done].
    exists hub0, ∅, 2. repeat split; vm_compute; reflexivity. }
  split; [exact Hh|].
  destruct (timer_fires_once w_hub 0 0 5 ring Hh) as (w1 & t & h & E & A & _).
  exists w1, t, h. split; assumption.
Defined.

(** C3.  [cancel()] on a pending timer marks it, closes and drops its handle
    and takes it out of the Hub's set, entering nothing; on a timer already
    marked it returns and changes nothing.  However the deadline and cancel
    requests interleave, the timer ends released, its callable entered once
    if the deadline came first and never if a cancel came first. *)
Theorem timer_cancel_xor_fire w th t c h hub :
  timer_pending w th t c h hub →
  (∃ w', _Timer_cancel t th w = (w', Ok tt) ∧
         trace w' = trace w ∧
         timers w' !! t = Some (mkTimer true (Some c) None) ∧
         timer_released w' t h hub) ∧
  (∀ w1 T, timers w1 !! t = Some T → called T = true →
           _Timer_cancel t th w1 = (w1, Ok tt)) ∧
  (∀ a l,
     timer_released (timer_race t th (a :: l) w) t h hub ∧
     timer_calls t (trace (timer_race t th (a :: l) w)) =
       timer_calls t (trace w) + match a with Fires => 1 | Cancels => 0 end).
Proof.
  intros Hp. split; [by apply cancel_pending|].
  split; [intros w1 T E Hc; by eapply cancel_called|].
  intros a l. cbn. destruct a; cbn.
  - destruct (timer_cb_fires _ _ _ _ _ _ Hp) as (w' & r & E & _ & Ec & ET & Hrel).
    rewrite E. cbn. rewrite (timer_race_called _ _ _ _ _ ET eq_refl).
    split; [done|]. rewrite (timer_calls_snoc _ _ _ _ _ Ec). lia.
  - destruct (cancel_pending _ _ _ _ _ _ Hp) as (w' & E & Etr & ET & Hrel).
    rewrite E. cbn. rewrite (timer_race_called _ _ _ _ _ ET eq_refl).
    split; [done|]. rewrite Etr. lia.
Qed.

Lemma w_timer_pending : timer_pending w_timer 0 7 ring 8 0.
Proof.
  split; [vm_compute; reflexivity|].
  split; [eexists; split; vm_compute; reflexivity|].
  split; [compute_done|]. split; [vm_compute; reflexivity|].
  eexists _, _. split; [vm_compute; reflexivity|]. split; [reflexivity|].
  compute_done.
Defined.

Lemma timer_cancel_xor_fire_witness :
  timer_pending w_timer 0 7 ring 8 0 ∧
  timer_calls 7 (trace (timer_race 7 0 [Fires; Cancels; Fires] w_timer)) =
    timer_calls 7 (trace w_timer) + 1 ∧
  timer_calls 7 (trace (timer_race 7 0 [Cancels; Fires] w_timer)) =
    timer_calls 7 (trace w_timer) + 0.
Proof.
  split; [exact w_timer_pending|].
  destruct (timer_cancel_xor_fire w_timer 0 7 ring 8 0 w_timer_pending)
    as (_ & _ & R).
  split; [exact (proj2 (R Fires [Cancels; Fires]))|exact (proj2 (R Cancels [Fires]))].
Defined.

(** ** The tick queue *)

Lemma starts_app h tr1 tr2 : starts h (tr1 ++ tr2) = starts h tr1 + starts h tr2.
Proof. unfold starts. by rewrite filter_app, length_app. Qed.

Lemma enqueued_app hub tr1 tr2 :
  enqueued hub (tr1 ++ tr2) = enqueued hub tr1 ++ enqueued hub tr2.
Proof. apply omap_app. Qed.

Lemma tick_ready_live w hub p i q a : tick_ready w hub p i q a → tick_live w hub p q.
Proof.
  intros (_ & (H & EH & Eq & Ep & _) & (P & EP & Pop & _) & _ & Hun).
  split; [by eexists|]. split; [by eexists|]. done.
Qed.

Lemma next_tick_ready w hub p i q a f :
  tick_ready w hub p i q a →
  ∃ w', Hub_next_tick hub f w = (w', Ok tt) ∧
        tick_ready w' hub p i (q ++ [f]) true ∧
        trace w' = trace w ++ EvEnqueue hub f ::
                     (if a then [] else [EvStart p; EvStart i]).
Proof.
  intros (Hne & (H & EH & Eq & Ep & Ei) & (P & EP & Pop & Pact) & (I & EI & Iop) & Hun).
  munfold. destruct a; mrun.
  - eexists. split; [reflexivity|]. cbn. split; [|done].
    unfold tick_ready, unowned in *. mrun. repeat split; try done; eauto 10.
  - eexists. split; [reflexivity|]. cbn. rewrite <- !app_assoc. split; [|done].
    unfold tick_ready, unowned in *. mrun. repeat split; try done; eauto 10.
Qed.

Lemma next_tick_all_ready fs : ∀ w hub p i q a,
  tick_ready w hub p i q a →
  ∃ w', for_each fs (Hub_next_tick hub) w = (w', Ok tt) ∧
        tick_ready w' hub p i (q ++ fs) (match fs with [] => a | _ => true end) ∧
        starts p (trace w') =
          starts p (trace w) + match fs with [] => 0 | _ => if a then 0 else 1 end ∧
        calls (trace w') = calls (trace w) ∧
        enqueued hub (trace w') = enqueued hub (trace w) ++ fs.
Proof.
  induction fs as [|f fs IH]; intros w hub p i q a R.
  - exists w. cbn. rewrite !app_nil_r. split; [done|]. split; [done|].
    split; [lia|]. done.
  - destruct (next_tick_ready _ _ _ _ _ _ f R) as (w1 & E1 & R1 & T1).
    destruct (IH _ _ _ _ _ _ R1) as (w2 & E2 & R2 & S2 & C2 & Q2).
    exists w2. cbn. unfold bind. rewrite E1, E2. split; [done|].
    rewrite <- app_assoc in R2. cbn in R2. split; [by destruct fs|].
    destruct R as (Hne & _).
    set (X := EvEnqueue hub f :: (if a then [] else [EvStart p; EvStart i])) in *.
    assert (Hs : starts p X = if a then 0 else 1).
    { unfold starts, X. destruct a; cbn; [done|].
      rewrite bool_decide_true by done. by rewrite bool_decide_false. }
    assert (Hc : calls X = []) by (unfold X; by destruct a).
    assert (Hq : enqueued hub X = [f]).
    { unfold X. cbn. rewrite decide_True by done. by destruct a. }
    rewrite S2, C2, Q2, T1, starts_app, calls_app, enqueued_app, Hs, Hc, Hq.
    rewrite app_nil_r, <- app_assoc. split; [|done].
    destruct fs, a; lia.
Qed.

Lemma tick_cb_swaps w hub th p i q a :
  tick_ready w hub p i q a →
  ∃ ws, tick_ready ws hub p i [] false ∧
        trace ws = trace w ++ [EvStop p; EvStop i] ∧
        Hub__tick_cb hub th w = for_each q (call (SiteTick hub) th) ws.
Proof.
  intros (Hne & (H & EH & Eq & Ep & Ei) & (P & EP & Pop & Pact) & (I & EI & Iop) & Hun).
  munfold. mrun.
  eexists. split; [|split; [|reflexivity]].
  - unfold tick_ready, unowned in *. mrun. repeat split; try done; eauto 10.
  - cbn. by rewrite <- app_assoc.
Qed.

Lemma flush_calls site th q : ∀ w w' r,
  for_each q (call site th) w = (w', r) →
  ∃ pre post,
    q = pre ++ post ∧
    calls (trace w') = calls (trace w) ++ map (λ f, (site, th, f)) pre ∧
    match r with
    | Ok _ => post = []
    | Raise e => ∃ pre0 f wf, pre = pre0 ++ [f] ∧ (run_cb th f wf).2 = Raise e
    end.
Proof.
  induction q as [|f q IH]; intros w w' r E; cbn in E.
  - injection E as <- <-. exists [], []. cbn. by rewrite app_nil_r.
  - unfold bind in E. pose proof (call_calls site th f w) as Hc.
    destruct (call site th f w) as [w1 [[]|e]] eqn:E1; cbn in Hc.
    + destruct (IH _ _ _ E) as (pre & post & -> & Hcalls & Hr).
      exists (f :: pre), post. split; [done|]. split.
      * rewrite Hcalls, Hc, <- app_assoc. done.
      * destruct r; [done|]. destruct Hr as (pre0 & g & wf & -> & Hg).
        by exists (f :: pre0), g, wf.
    + injection E as <- <-. exists [f], q. split; [done|]. split; [done|].
      exists [], f. eexists. split; [done|].
      rewrite call_unfold in E1. by rewrite E1.
Qed.

(** What callables enqueue lands in the queue in place, and arms the
    marker. *)

Lemma tick_live_step w w' hub p q :
  cb_step w w' → queue_of w' hub = queue_of w hub →
  tick_live w hub p q → tick_live w' hub p q.
Proof.
  intros S Eq ((H & EH & EQ & Ep) & (P & EP & Pop) & Hun).
  destruct (st_hubs _ _ S _ _ EH) as (H1 & EH1 & _ & _ & Ep1 & _).
  destruct (st_handles _ _ S _ _ EP Pop Hun) as (P1 & EP1 & Pop1 & _).
  unfold queue_of in Eq. rewrite EH, EH1 in Eq.
  split; [|split; [by eexists|by eapply cb_step_unowned]].
  exists H1. split; [done|]. split; congruence.
Qed.

Lemma armed_step w w' p :
  cb_step w w' → (∃ P, handles w !! p = Some P ∧ closed P = false) →
  unowned w p → armed w p → armed w' p.
Proof.
  intros S (P & EP & Pop) Hun (P' & EP' & Pact).
  assert (P' = P) as -> by congruence.
  destruct (st_handles _ _ S _ _ EP Pop Hun) as (P1 & EP1 & _ & Hact).
  exists P1. auto.
Qed.

Lemma next_tick_other self f hub w :
  self ≠ hub →
  enqueued hub (trace (Hub_next_tick self f w).1) = enqueued hub (trace w) ∧
  queue_of (Hub_next_tick self f w).1 hub = queue_of w hub.
Proof.
  intros Hne. munfold. msteps; try done.
  all: unfold queue_of, enqueued; cbn; rewrite ?omap_app; cbn;
    rewrite ?decide_False by done; rewrite ?app_nil_r;
    by rewrite lookup_insert_ne.
Qed.

Lemma next_tick_enqueues f hub p q w :
  tick_live w hub p q →
  enqueued hub (trace (Hub_next_tick hub f w).1) = enqueued hub (trace w) ++ [f] ∧
  tick_live (Hub_next_tick hub f w).1 hub p (q ++ [f]) ∧
  armed (Hub_next_tick hub f w).1 p.
Proof.
  intros ((H & EH & EQ & Ep) & (P & EP & Pop) & Hun).
  munfold. mrun. destruct (active P) eqn:Pact; mrun.
  { unfold enqueued. rewrite omap_app. cbn. rewrite decide_True by done.
    split; [done|]. unfold tick_live, armed, unowned in *. mrun. naive_solver. }
  msteps.
  all: unfold enqueued; rewrite ?omap_app; cbn; rewrite ?decide_True by done;
    rewrite ?app_nil_r; (split; [done|]).
  all: unfold tick_live, armed, unowned in *; cbn; rewrite ?lookup_insert_eq;
    rewrite ?lookup_insert; repeat case_decide; cbn; naive_solver.
Qed.

Lemma cancel_queue t th hub w :
  queue_of (_Timer_cancel t th w).1 hub = queue_of w hub.
Proof.
  munfold. msteps; try done.
  unfold queue_of. cbn. rewrite lookup_insert.
  match goal with
  | |- context [decide (?a = hub)] => destruct (decide (a = hub)) as [->|]
  end; [|done].
  cbn. by match goal with E : hubs _ !! _ = _ |- _ => rewrite E end.
Qed.

Lemma run_cb_enqueues th hub p c : ∀ w q,
  tick_live w hub p q →
  ∃ Δ, enqueued hub (trace (run_cb th c w).1) = enqueued hub (trace w) ++ Δ ∧
       tick_live (run_cb th c w).1 hub p (q ++ Δ) ∧
       (Δ ≠ [] → armed (run_cb th c w).1 p).
Proof.
  induction c as [tag|e|h f _|t|a IHa b IHb]; intros w q L; cbn -[enqueued].
  - exists []. rewrite enqueued_app. cbn. by rewrite !app_nil_r.
  - exists []. by rewrite !app_nil_r.
  - destruct (decide (h = hub)) as [->|Hne].
    + exists [f]. by destruct (next_tick_enqueues f hub p q w L) as (? & ? & ?).
    + exists []. rewrite !app_nil_r.
      destruct (next_tick_other h f hub w Hne) as (Et & Eq).
      split; [done|]. split; [|done].
      by eapply tick_live_step; [apply next_tick_step|..].
  - exists []. rewrite !app_nil_r, trace_cancel. split; [done|]. split; [|done].
    eapply tick_live_step; [apply cancel_step|apply cancel_queue|done].
  - unfold bind. destruct (IHa w q L) as (Δ1 & E1 & L1 & A1).
    destruct (run_cb th a w) as [w1 [[]|e]] eqn:Ea; cbn in *; [|by exists Δ1].
    destruct (IHb w1 _ L1) as (Δ2 & E2 & L2 & A2).
    exists (Δ1 ++ Δ2). rewrite E2, E1, <- !app_assoc. split; [done|].
    rewrite app_assoc. split; [done|]. intros Hne.
    destruct Δ2 as [|g Δ2]; [|by apply A2].
    rewrite app_nil_r in Hne. destruct L1 as (_ & Hop & Hun).
    eapply armed_step; [apply run_cb_step|done|done|by apply A1].
Qed.

Lemma flush_enqueues hub th p qs : ∀ w q,
  tick_live w hub p q →
  ∃ Δ, enqueued hub (trace (for_each qs (call (SiteTick hub) th) w).1) =
         enqueued hub (trace w) ++ Δ ∧
       tick_live (for_each qs (call (SiteTick hub) th) w).1 hub p (q ++ Δ) ∧
       (Δ ≠ [] → armed (for_each qs (call (SiteTick hub) th) w).1 p).
Proof.
  induction qs as [|f qs IH]; intros w q L; cbn -[enqueued].
  - exists []. by rewrite !app_nil_r.
  - unfold bind. rewrite call_unfold.
    set (w0 := set_trace _ w).
    assert (L0 : tick_live w0 hub p q) by exact L.
    destruct (run_cb_enqueues th hub p f w0 q L0) as (Δ1 & E1 & L1 & A1).
    assert (E0 : enqueued hub (trace w0) = enqueued hub (trace w)).
    { unfold w0. cbn -[enqueued]. rewrite enqueued_app. cbn. by rewrite app_nil_r. }
    rewrite E0 in E1.
    destruct (run_cb th f w0) as [w1 [[]|e]] eqn:Ef; cbn in *; [|by exists Δ1].
    destruct (IH w1 _ L1) as (Δ2 & E2 & L2 & A2).
    exists (Δ1 ++ Δ2). rewrite E2, E1, <- !app_assoc. split; [done|].
    rewrite app_assoc. split; [done|]. intros Hne.
    destruct Δ2 as [|g Δ2]; [|by apply A2].
    rewrite app_nil_r in Hne. destruct L1 as (_ & Hop & Hun).
    eapply armed_step; [apply for_each_call_step|done|done|by apply A1].
Qed.

(** C4, as amended.  Enqueuing the callables [fs] on a Hub whose tick
    machinery is in order appends them in order, enters none of them, and
    arms the turn marker [p] once if it was not armed and not at all if it
    was.  The flush then disarms the marker and its companion and swaps the
    queue for an empty one ([ws]) before any callable runs, and enters the
    queued callables in enqueue order ([pre]) until one raises: when none
    raises all of them were entered ([post] is empty), when one raises it
    is the last one entered.  Whatever was enqueued on this Hub during the
    flush ([Δ]) makes up the new queue, is entered by no call of this
    flush, and leaves the marker armed for a later turn. *)
Theorem tick_coalescing w hub th p i q a fs :
  tick_ready w hub p i q a → fs ≠ [] →
  ∃ w1,
    for_each fs (Hub_next_tick hub) w = (w1, Ok tt) ∧
    starts p (trace w1) = starts p (trace w) + (if a then 0 else 1) ∧
    calls (trace w1) = calls (trace w) ∧
    enqueued hub (trace w1) = enqueued hub (trace w) ++ fs ∧
    tick_ready w1 hub p i (q ++ fs) true ∧
    ∃ ws w2 r pre post Δ,
      Hub__tick_cb hub th w1 = (w2, r) ∧
      tick_ready ws hub p i [] false ∧
      trace ws = trace w1 ++ [EvStop p; EvStop i] ∧
      for_each (q ++ fs) (call (SiteTick hub) th) ws = (w2, r) ∧
      q ++ fs = pre ++ post ∧
      calls (trace w2) = calls (trace w1) ++ tick_calls hub th pre ∧
      match r with
      | Ok _ => post = []
      | Raise e => ∃ pre0 f wf, pre = pre0 ++ [f] ∧ (run_cb th f wf).2 = Raise e
      end ∧
      enqueued hub (trace w2) = enqueued hub (trace w1) ++ Δ ∧
      queue_of w2 hub = Some Δ ∧
      (Δ ≠ [] → armed w2 p).
Proof.
  intros R Hfs.
  destruct (next_tick_all_ready fs _ _ _ _ _ _ R) as (w1 & E1 & R1 & S1 & C1 & Q1).
  destruct fs as [|f0 fs0]; [done|]. set (fs := f0 :: fs0) in *.
  exists w1. repeat (split; [done|]).
  destruct (tick_cb_swaps _ _ th _ _ _ _ R1) as (ws & Rs & Ts & Es).
  destruct (Hub__tick_cb hub th w1) as [w2 r] eqn:E2. symmetry in Es.
  destruct (flush_calls _ _ _ _ _ _ Es) as (pre & post & Hq & Hcalls & Hr).
  destruct (flush_enqueues hub th p (q ++ fs) ws [] (tick_ready_live _ _ _ _ _ _ Rs))
    as (Δ & EΔ & LΔ & AΔ).
  rewrite Es in EΔ, LΔ, AΔ. cbn in EΔ, LΔ, AΔ.
  exists ws, w2, r, pre, post, Δ. repeat (split; [done|]). split.
  { rewrite Hcalls, Ts, calls_app. cbn. by rewrite app_nil_r. }
  split; [done|]. split.
  { rewrite EΔ, Ts, enqueued_app. cbn. by rewrite app_nil_r. }
  split; [|done].
  destruct LΔ as ((H & EH & EQ & _) & _). unfold queue_of. by rewrite EH.
Qed.

Lemma w_hub_tick_ready : tick_ready w_hub 0 5 6 [] false.
Proof.
  split; [done|]. split.
  { exists hub0. repeat split; vm_compute; reflexivity. }
  split; [eexists; repeat split; vm_compute; reflexivity|].
  split; [eexists; repeat split; vm_compute; reflexivity|].
  compute_done.
Defined.

Lemma tick_coalescing_witness :
  tick_ready w_hub 0 5 6 [] false ∧ [Throw SomeError; Note 2] ≠ [] ∧
  ∃ w1, for_each [Throw SomeError; Note 2] (Hub_next_tick 0) w_hub = (w1, Ok tt) ∧
        starts 5 (trace w1) = starts 5 (trace w_hub) + 1.
Proof.
  assert (Hne : [Throw SomeError; Note 2] ≠ []) by discriminate.
  split; [exact w_hub_tick_ready|]. split; [exact Hne|].
  destruct (tick_coalescing w_hub 0 0 5 6 [] false [Throw SomeError; Note 2]
              w_hub_tick_ready Hne) as (w1 & E & St & _).
  exists w1. split; assumption.
Defined.

(** A flush whose first callable raises never enters the second one, in
    that turn or in a later one. *)
Lemma flush_stops_at_raise : ¬ flush_invokes_all 0 0 w_ticks.
Proof.
  intros Hall.
  assert (Hq : queue_of w_ticks 0 = Some [Throw SomeError; Note 2])
    by (vm_compute; reflexivity).
  specialize (Hall _ Hq). vm_compute in Hall. discriminate.
Qed.

Lemma dropped_callable_never_runs :
  calls (trace (dispatch 5 0 (dispatch 5 0 w_ticks).1).1) =
    [(SiteTick 0, 0, Throw SomeError)] ∧
  queue_of (dispatch 5 0 w_ticks).1 0 = Some [].
Proof. split; vm_compute; reflexivity. Qed.

(** ** The error hook *)

(** C5, as amended.  For an error of a [SYSTEM_ERROR] kind that reaches the
    hook while the Hub's greenlet is the current one, the error is printed
    unless its kind is also a [NOT_ERROR] kind, and then thrown at once
    into the parent of the Hub's greenlet, which becomes the current one;
    nothing is queued. *)
Theorem system_error_rethrown w hub th e H p :
  issubclass (exn_typ e) SYSTEM_ERROR = true →
  hubs w !! hub = Some H →
  current_of w th = greenlet H →
  parent w !! greenlet H = Some p →
  ∃ w', Hub__handle_error hub e th w = (w', Ok tt) ∧
        trace w' = trace w ++
          (if issubclass (exn_typ e) NOT_ERROR then [] else [EvPrintException e])
          ++ [EvThrow p e] ∧
        running w' !! th = Some p ∧
        hubs w' = hubs w.
Proof.
  intros Hsys EH Hcur Ep. unfold current_of in Hcur.
  munfold. destruct (issubclass (exn_typ e) NOT_ERROR); cbn; rewrite Hsys; cbn;
    rewrite EH; cbn; rewrite Hcur; rewrite decide_True by done; cbn;
    rewrite Ep; cbn.
  - eexists. split; [reflexivity|]. cbn. by rewrite lookup_insert_eq.
  - eexists. split; [reflexivity|]. cbn. rewrite <- app_assoc.
    by rewrite lookup_insert_eq.
Qed.

Lemma system_error_rethrown_witness :
  issubclass (exn_typ (Exn KeyboardInterrupt "")) SYSTEM_ERROR = true ∧
  hubs w_in_hub !! 0 = Some hub0 ∧
  current_of w_in_hub 0 = greenlet hub0 ∧
  parent w_in_hub !! greenlet hub0 = Some (MainFiber 0) ∧
  ∃ w1, Hub__handle_error 0 (Exn KeyboardInterrupt "") 0 w_in_hub = (w1, Ok tt) ∧
        running w1 !! 0 = Some (MainFiber 0).
Proof.
  assert (H1 : issubclass (exn_typ (Exn KeyboardInterrupt "")) SYSTEM_ERROR = true)
    by (vm_compute; reflexivity).
  assert (H2 : hubs w_in_hub !! 0 = Some hub0) by (vm_compute; reflexivity).
  assert (H3 : current_of w_in_hub 0 = greenlet hub0) by (vm_compute; reflexivity).
  assert (H4 : parent w_in_hub !! greenlet hub0 = Some (MainFiber 0))
    by (vm_compute; reflexivity).
  repeat (split; [assumption|]).
  destruct (system_error_rethrown _ _ _ _ _ _ H1 H2 H3 H4) as (w1 & E & _ & R & _).
  exists w1. split; assumption.
Defined.

(** [SystemExit] is both a [SYSTEM_ERROR] and a [NOT_ERROR]: it is thrown
    into the parent without being printed. *)
Lemma system_exit_not_logged :
  ¬ system_error_logged 0 0 w_in_hub (Exn SystemExit "").
Proof.
  intros Hl. assert (Hs : issubclass SystemExit SYSTEM_ERROR = true)
    by (vm_compute; reflexivity).
  specialize (Hl Hs). vm_compute in Hl. discriminate.
Qed.

(** Off the Hub fiber the hook reads [self.parent], which a Hub does not
    have: nothing is deferred. *)
Lemma handle_error_off_hub_fiber w hub th e H :
  issubclass (exn_typ e) SYSTEM_ERROR = true →
  hubs w !! hub = Some H →
  current_of w th ≠ greenlet H →
  ∃ w', Hub__handle_error hub e th w =
          (w', Raise (Exn AttributeError "'Hub' object has no attribute 'parent'")) ∧
        hubs w' = hubs w ∧ handles w' = handles w.
Proof.
  intros Hsys EH Hcur. unfold current_of in Hcur.
  munfold. destruct (issubclass (exn_typ e) NOT_ERROR); cbn; rewrite Hsys; cbn;
    rewrite EH; cbn; rewrite decide_False by done; eauto.
Qed.

(** ** switch *)

Lemma parent_is_cycle (pm : gmap fiber_id fiber_id) g cur :
  pm !! g = Some cur → in_chain (size pm) pm g cur = true.
Proof.
  intros E. destruct (size pm) as [|k] eqn:Hs.
  - apply map_size_empty_iff in Hs. subst. by rewrite lookup_empty in E.
  - cbn. case_decide; [done|]. rewrite E. destruct k; cbn; by rewrite decide_True.
Qed.

Lemma switch_after_hook w hub th H w1 :
  hubs w !! hub = Some H →
  match hook w !! current_of w th with
  | None => w1 = w
  | Some c => call (SiteSwitchOut (current_of w th)) th c w = (w1, Ok tt)
  end →
  ∃ w',
    Hub_switch hub th w = (w', Ok tt) ∧
    (∀ c, hook w !! current_of w th = Some c →
          trace w ++ [EvCall (SiteSwitchOut (current_of w th)) th c]
            `prefix_of` trace w1) ∧
    trace w' = trace w1 ++ [EvSwitch (current_of w th) (greenlet H)] ∧
    parent w' =
      (if would_cycle w (current_of w th) (greenlet H) then parent w
       else <[current_of w th := greenlet H]> (parent w)) ∧
    running w' = <[th := greenlet H]> (running w).
Proof.
  intros EH Hhook. set (cur := current_of w th) in *.
  assert (S : cb_step w w1 ∧
              (∀ c, hook w !! cur = Some c →
                    trace w ++ [EvCall (SiteSwitchOut cur) th c] `prefix_of` trace w1) ∧
              (match hook w !! cur with
               | Some c => call (SiteSwitchOut cur) th c
               | None => ret tt
               end) w = (w1, Ok tt)).
  { destruct (hook w !! cur) as [c|] eqn:Ehk.
    - split; [|split; [|done]].
      + pose proof (call_step (SiteSwitchOut cur) th c w) as S.
        by rewrite Hhook in S.
      + intros c' [= <-]. rewrite call_unfold in Hhook.
        pose proof (run_cb_trace th c (set_trace (λ t, t ++ [EvCall (SiteSwitchOut cur) th c]) w)) as P.
        by rewrite Hhook in P.
    - subst w1. split; [apply cb_step_refl|]. split; [done|]. done. }
  destruct S as (S & Hpre & Ecall).
  destruct (st_hubs _ _ S _ _ EH) as (H1 & EH1 & Eg & _).
  unfold Hub_switch, bind at 1, get_current, get. fold (current_of w th). fold cur.
  unfold bind at 1, get. cbn.
  unfold bind at 1. rewrite Ecall.
  unfold bind at 1, hub_obj, bind at 1, get, deref. rewrite EH1. cbn.
  unfold bind at 1, try_except_pass, bind at 1, get.
  rewrite Eg, (st_parent _ _ S).
  assert (Hcur1 : default (MainFiber th) (running w1 !! th) = cur).
  { by rewrite (st_running _ _ S). }
  assert (Hwc : would_cycle w1 cur (greenlet H) = would_cycle w cur (greenlet H)).
  { unfold would_cycle. by rewrite (st_parent _ _ S). }
  pose proof (st_parent _ _ S) as Epar. pose proof (st_running _ _ S) as Erun.
  destruct (decide (parent w !! greenlet H = Some cur)) as [Ep|Ep].
  - cbn. unfold greenlet_switch, get_current, bind, get, emit, modify. cbn.
    eexists. split; [reflexivity|]. cbn.
    split; [done|]. split; [by rewrite Hcur1|].
    unfold would_cycle. rewrite (parent_is_cycle _ _ _ Ep). by rewrite Epar, Erun.
  - unfold greenlet_set_parent, bind, get. rewrite Hwc.
    destruct (would_cycle w cur (greenlet H)); cbn.
    + unfold greenlet_switch, get_current, bind, get, emit, modify. cbn.
      eexists. split; [reflexivity|]. cbn.
      split; [done|]. split; [by rewrite Hcur1|]. by rewrite Epar, Erun.
    + unfold greenlet_switch, get_current, bind, get, emit, modify. cbn.
      eexists. split; [reflexivity|]. cbn.
      split; [done|]. split; [by rewrite Hcur1|]. by rewrite Epar, Erun.
Qed.

Lemma switch_hook_raises w hub th c e w1 :
  hook w !! current_of w th = Some c →
  call (SiteSwitchOut (current_of w th)) th c w = (w1, Raise e) →
  Hub_switch hub th w = (w1, Raise e).
Proof.
  intros Ehk Ecall. unfold Hub_switch, bind, get_current, get.
  fold (current_of w th). rewrite Ehk, Ecall. done.
Qed.

(** C6.  [switch] first runs the [switch_out] hook of the calling greenlet,
    if it has one; when the hook returns (or there is none) the parent link
    of the caller becomes the Hub's greenlet unless that would close a
    cycle, in which case the parent links stay as they were and nothing is
    raised; last, control goes to the Hub's greenlet.  A hook that raises
    ends [switch] with its error. *)
Theorem switch_protocol w hub th H :
  hubs w !! hub = Some H →
  (∀ w1,
     match hook w !! current_of w th with
     | None => w1 = w
     | Some c => call (SiteSwitchOut (current_of w th)) th c w = (w1, Ok tt)
     end →
     ∃ w2,
       Hub_switch hub th w = (w2, Ok tt) ∧
       (∀ c, hook w !! current_of w th = Some c →
             trace w ++ [EvCall (SiteSwitchOut (current_of w th)) th c]
               `prefix_of` trace w1) ∧
       trace w2 = trace w1 ++ [EvSwitch (current_of w th) (greenlet H)] ∧
       parent w2 =
         (if would_cycle w (current_of w th) (greenlet H) then parent w
          else <[current_of w th := greenlet H]> (parent w)) ∧
       running w2 = <[th := greenlet H]> (running w)) ∧
  (∀ c e w1,
     hook w !! current_of w th = Some c →
     call (SiteSwitchOut (current_of w th)) th c w = (w1, Raise e) →
     Hub_switch hub th w = (w1, Raise e)).
Proof.
  intros EH. split.
  - intros w1 Hhook. by eapply switch_after_hook.
  - intros c e w1. apply switch_hook_raises.
Qed.

Lemma switch_protocol_witness :
  hubs w_fiber !! 0 = Some hub0 ∧
  ∃ w1, Hub_switch 0 0 w_fiber = (w1, Ok tt) ∧
        running w1 = <[0 := greenlet hub0]> (running w_fiber).
Proof.
  assert (H1 : hubs w_fiber !! 0 = Some hub0) by (vm_compute; reflexivity).
  split; [exact H1|].
  destruct (switch_protocol w_fiber 0 0 hub0 H1) as (A & _).
  destruct (A (call (SiteSwitchOut (Fiber 9)) 0 (Note 3) w_fiber).1)
    as (w1 & E & _ & _ & _ & R).
  { vm_compute. reflexivity. }
  exists w1. split; assumption.
Defined.

(** C7 on the code.  With the Hub's own greenlet current, [switch()] on the
    Hub returns: the hook is looked up on the greenlet, which has none,
    while the raising [switch_out] is a method of the Hub object. *)
Theorem hub_fiber_switch_does_not_raise :
  current_of w_in_hub 0 = greenlet hub0 ∧
  hubs w_in_hub !! 0 = Some hub0 ∧
  hook w_in_hub !! greenlet hub0 = None ∧
  (Hub_switch 0 0 w_in_hub).2 = Ok tt ∧
  parent (Hub_switch 0 0 w_in_hub).1 = parent w_in_hub ∧
  (Hub_switch_out w_in_hub).2 =
    Raise (Exn RuntimeError "Cannot switch to MAINLOOP from MAINLOOP").
Proof. repeat split; vm_compute; reflexivity. Qed.

(** ** call_from_thread *)

Lemma fire_wake w th a func :
  wake_pending w a func →
  ∃ w' r wc,
    fire a th w = (w', r) ∧
    r = (run_cb th func wc).2 ∧
    calls (trace w') = calls (trace w) ++ [(SiteFromThread a, th, func)] ∧
    (∃ Hd, handles w' !! a = Some Hd ∧ closed Hd = true) ∧
    fire a th w' = (w', Ok tt).
Proof.
  intros ((Hd & EH & Hop & Hact & Hsent & Hcb) & Hun).
  unfold fire, pyuv.get_handle, pyuv.put_handle, bind at 1, bind at 1, get, deref, ret.
  rewrite EH. cbn. rewrite Hop, Hact, Hcb, Hsent. cbn.
  unfold bind at 1, modify. cbn.
  unfold call_from_thread__cb, try_finally.
  set (w0 := set_handles _ w).
  pose proof (call_step (SiteFromThread a) th func w0) as S.
  pose proof (call_calls (SiteFromThread a) th func w0) as Hc.
  pose proof (call_unfold (SiteFromThread a) th func w0) as Hu.
  destruct (call (SiteFromThread a) th func w0) as [w1 r] eqn:E1. cbn in S, Hc.
  assert (EH0 : ∃ Hd0, handles w0 !! a = Some Hd0 ∧ closed Hd0 = false).
  { unfold w0. cbn. rewrite lookup_insert_eq. by eexists. }
  destruct EH0 as (Hd0 & EH0 & Hop0).
  destruct (st_handles _ _ S _ _ EH0 Hop0 Hun) as (Hd1 & EH1 & Hop1 & _).
  unfold pyuv.close, pyuv.open_handle, pyuv.get_handle, pyuv.put_handle,
    bind, get, deref, ret, raise, modify.
  rewrite EH1. cbn. rewrite Hop1. cbn.
  eexists _, r, _. split; [by destruct r|]. split; [by rewrite <- Hu|].
  cbn. split; [done|]. split.
  - eexists. by rewrite lookup_insert_eq.
  - rewrite lookup_insert_eq. done.
Qed.

(** C8.  [call_from_thread] makes a new async handle, sends on it and calls
    nothing itself.  When the reactor, on the thread [th] that drives it,
    fires the pending handle, [func] is entered exactly once, on [th]; the
    handle is closed whether [func] returned or raised, the outcome being
    that of [func]; a closed handle fires no more. *)
Theorem call_from_thread_once w hub func H l :
  hubs w !! hub = Some H → loop H = Some l → unowned w (next_id w) →
  ∃ w1,
    Hub_call_from_thread hub func w = (w1, Ok tt) ∧
    calls (trace w1) = calls (trace w) ∧
    wake_pending w1 (next_id w) func ∧
    ∀ w2 th, wake_pending w2 (next_id w) func →
      ∃ w3 r wc,
        fire (next_id w) th w2 = (w3, r) ∧
        r = (run_cb th func wc).2 ∧
        calls (trace w3) =
          calls (trace w2) ++ [(SiteFromThread (next_id w), th, func)] ∧
        (∃ Hd, handles w3 !! next_id w = Some Hd ∧ closed Hd = true) ∧
        fire (next_id w) th w3 = (w3, Ok tt).
Proof.
  intros EH El Hun. munfold. mrun.
  eexists. split; [reflexivity|]. cbn. split; [done|]. split.
  - unfold wake_pending. cbn. rewrite lookup_insert_eq. split; [by eexists|done].
  - intros w2 th Hw. by apply fire_wake.
Qed.

Lemma call_from_thread_once_witness :
  hubs w_hub !! 0 = Some hub0 ∧ loop hub0 = Some 2 ∧ unowned w_hub (next_id w_hub) ∧
  ∃ w1, Hub_call_from_thread 0 (Throw SomeError) w_hub = (w1, Ok tt) ∧
        wake_pending w1 (next_id w_hub) (Throw SomeError).
Proof.
  assert (H1 : hubs w_hub !! 0 = Some hub0) by (vm_compute; reflexivity).
  assert (H2 : loop hub0 = Some 2) by reflexivity.
  assert (H3 : unowned w_hub (next_id w_hub)) by compute_done.
  repeat (split; [assumption|]).
  destruct (call_from_thread_once w_hub 0 (Throw SomeError) hub0 2 H1 H2 H3)
    as (w1 & E & _ & P & _).
  exists w1. split; assumption.
Defined.

(** ** Freshness of identities along executions *)

Lemma ids_fresh_empty : ids_fresh empty_world.
Proof. unfold ids_fresh. cbn. apply map_Forall_empty. Qed.

Lemma ids_fresh_unowned w k : ids_fresh w → next_id w ≤ k → unowned w k.
Proof.
  intros Hf Hk t T E _ Eh. specialize (Hf _ _ E _ Eh). cbn in Hf. lia.
Qed.

Ltac fresh_leaf :=
  let Hf := fresh "Hf" in
  intros Hf ? ? ? ? ?; cbn -[in_chain] in *;
  repeat match goal with
         | E : <[_ := _]> _ !! _ = Some _ |- _ =>
             rewrite lookup_insert in E; case_decide; simplify_eq
         end;
  cbn in *; simplify_eq;
  try match goal with
      | Hf : ids_fresh _, E : timers _ !! _ = Some ?T, Eh : _timer ?T = Some _ |- _ =>
          specialize (Hf _ _ E _ Eh); cbn in Hf
      end;
  try lia.

Lemma ids_fresh_step w w' : cb_step w w' → ids_fresh w → ids_fresh w'.
Proof.
  intros S Hf t T' E h Eh.
  destruct (st_timers _ _ S _ _ E) as (T & ET & _ & [Et|Et]); [|congruence].
  rewrite (st_next_id _ _ S). rewrite Et in Eh. exact (Hf _ _ ET _ Eh).
Qed.

Lemma ids_fresh_Hub_new th w : ids_fresh w → ids_fresh (Hub_new th w).1.
Proof. munfold. msteps; fresh_leaf. Qed.

Lemma ids_fresh_call_later hub secs c w :
  ids_fresh w → ids_fresh (Hub_call_later hub secs c w).1.
Proof. munfold. msteps; fresh_leaf. Qed.

Lemma ids_fresh_call_from_thread hub func w :
  ids_fresh w → ids_fresh (Hub_call_from_thread hub func w).1.
Proof. munfold. msteps; fresh_leaf. Qed.

Lemma ids_fresh_destroy hub th w : ids_fresh w → ids_fresh (Hub_destroy hub th w).1.
Proof. munfold. msteps; fresh_leaf. Qed.

Lemma ids_fresh_run_cb th c w : ids_fresh w → ids_fresh (run_cb th c w).1.
Proof. apply ids_fresh_step, run_cb_step. Qed.

Lemma ids_fresh_call site th c w : ids_fresh w → ids_fresh (call site th c w).1.
Proof. apply ids_fresh_step, call_step. Qed.

Lemma ids_fresh_timer_cb_finally t th w :
  ids_fresh w → ids_fresh (_Timer__timer_cb_finally t th w).1.
Proof. munfold. msteps; fresh_leaf. Qed.

Lemma ids_fresh_timer_cb t th w :
  ids_fresh w → ids_fresh (_Timer__timer_cb t th w).1.
Proof.
  intros Hf. unfold _Timer__timer_cb, timer_obj, put_timer, try_finally, bind,
    get, deref, ret, raise, modify.
  destruct (timers w !! t) as [T|] eqn:ET; cbn; [|done].
  destruct (called T); cbn; [done|]. rewrite lookup_insert_eq. cbn.
  set (w0 := set_timers _ w).
  assert (Hf0 : ids_fresh w0) by (revert Hf; unfold w0; fresh_leaf).
  destruct (cb T) as [c|].
  - pose proof (ids_fresh_call (SiteTimer t) th c w0 Hf0) as X0.
    destruct (call (SiteTimer t) th c w0) as [w1 r]. cbn in X0.
    pose proof (ids_fresh_timer_cb_finally t th w1 X0) as X.
    destruct (_Timer__timer_cb_finally t th w1) as [w2 [[]|e]]; done.
  - pose proof (ids_fresh_timer_cb_finally t th w0 Hf0) as X.
    destruct (_Timer__timer_cb_finally t th w0) as [w2 [[]|e]]; done.
Qed.

Lemma ids_fresh_for_each_call site th q w :
  ids_fresh w → ids_fresh (for_each q (call site th) w).1.
Proof. apply ids_fresh_step, for_each_call_step. Qed.

Lemma ids_fresh_tick_cb hub th w : ids_fresh w → ids_fresh (Hub__tick_cb hub th w).1.
Proof.
  intros Hf. unfold Hub__tick_cb.
  unfold hub_obj, put_hub, not_none, pyuv.stop, pyuv.open_handle, pyuv.get_handle,
    pyuv.put_handle, bind, get, deref, ret, raise, modify, emit.
  repeat (cbn -[for_each]; rewrite ?lookup_insert_eq;
          try match goal with
              | |- context [match ?x with _ => _ end] =>
                  lazymatch x with
                  | context [match _ with _ => _ end] => fail
                  | context [for_each] => fail
                  | _ => destruct x eqn:?
                  end
              end); try done.
  all: try (revert Hf; fresh_leaf; fail).
  all: match goal with
       | |- ids_fresh (let (_, _) := for_each ?q ?f ?w0 in _).1 =>
           assert (Hf0 : ids_fresh w0) by (revert Hf; fresh_leaf);
           pose proof (ids_fresh_for_each_call (SiteTick hub) th q w0 Hf0) as X;
           destruct (for_each q f w0) as [w1 [[]|e]]; exact X
       | |- ids_fresh (for_each ?q ?f ?w0).1 =>
           apply ids_fresh_for_each_call; revert Hf; fresh_leaf
       end.
Qed.

Lemma ids_fresh_same w w' :
  timers w' = timers w → next_id w' = next_id w → ids_fresh w → ids_fresh w'.
Proof. unfold ids_fresh. by intros -> ->. Qed.

Lemma ids_fresh_stop h w : ids_fresh w → ids_fresh (pyuv.stop h w).1.
Proof. munfold. msteps; fresh_leaf. Qed.

Lemma ids_fresh_close h w : ids_fresh w → ids_fresh (pyuv.close h w).1.
Proof. munfold. msteps; fresh_leaf. Qed.

Lemma ids_fresh_handle_error hub e th w :
  ids_fresh w → ids_fresh (Hub__handle_error hub e th w).1.
Proof. munfold. msteps; fresh_leaf. Qed.

Lemma ids_fresh_from_thread_cb a func th w :
  ids_fresh w → ids_fresh (call_from_thread__cb a func th w).1.
Proof.
  intros Hf. unfold call_from_thread__cb, try_finally.
  pose proof (ids_fresh_call (SiteFromThread a) th func w Hf) as X0.
  destruct (call (SiteFromThread a) th func w) as [w1 r]. cbn in X0.
  pose proof (ids_fresh_close a w1 X0) as X.
  destruct (pyuv.close a w1) as [w2 [[]|e]]; done.
Qed.

Lemma ids_fresh_fire h th w : ids_fresh w → ids_fresh (fire h th w).1.
Proof.
  intros Hf. unfold fire, pyuv.get_handle, pyuv.put_handle, bind, get, deref,
    ret, raise, modify.
  destruct (handles w !! h) as [Hd|]; cbn; [|done].
  destruct (closed Hd || negb (active Hd)); cbn; [done|].
  destruct (h_cb Hd); cbn; try done.
  - apply ids_fresh_timer_cb. revert Hf. by apply ids_fresh_same.
  - by apply ids_fresh_tick_cb.
  - by apply ids_fresh_stop.
  - destruct (h_sent Hd); cbn; [|done].
    apply ids_fresh_from_thread_cb. revert Hf. by apply ids_fresh_same.
Qed.

Lemma ids_fresh_dispatch h th w : ids_fresh w → ids_fresh (dispatch h th w).1.
Proof.
  intros Hf. unfold dispatch.
  pose proof (ids_fresh_fire h th w Hf) as X.
  destruct (fire h th w) as [w1 [[]|e]]; cbn in X; [done|].
  destruct (excepthook_of w1 h); [|done].
  by apply ids_fresh_handle_error.
Qed.

Lemma ids_fresh_switch_tail hub th cur w :
  ids_fresh w →
  ids_fresh
    ((H <~ hub_obj hub ;;
      try_except_pass ValueError
        (p <~ get (λ w, parent w !! greenlet H) ;;
         if decide (p = Some cur) then ret tt
         else greenlet_set_parent cur (greenlet H)) >>
      greenlet_switch th (greenlet H)) w).1.
Proof. munfold. msteps; fresh_leaf. Qed.

Lemma ids_fresh_switch hub th w : ids_fresh w → ids_fresh (Hub_switch hub th w).1.
Proof.
  intros Hf. unfold Hub_switch, get_current, bind at 1, get. cbn.
  unfold bind at 1, get. cbn. unfold bind at 1.
  set (cur := default (MainFiber th) (running w !! th)).
  destruct (hook w !! cur) as [c|].
  - pose proof (ids_fresh_call (SiteSwitchOut cur) th c w Hf) as X.
    destruct (call (SiteSwitchOut cur) th c w) as [w1 [[]|e]]; cbn in X; [|done].
    by apply ids_fresh_switch_tail.
  - cbn. by apply ids_fresh_switch_tail.
Qed.

(** Every world the operations lead to from the empty one hands out fresh
    identities. *)
Lemma ids_fresh_api_run o w : ids_fresh w → ids_fresh (api_run o w).
Proof.
  destruct o; cbn.
  - apply ids_fresh_Hub_new.
  - apply ids_fresh_destroy.
  - apply ids_fresh_call_later.
  - apply ids_fresh_call_from_thread.
  - apply ids_fresh_step, next_tick_step.
  - apply ids_fresh_step, cancel_step.
  - apply ids_fresh_switch.
  - apply ids_fresh_dispatch.
Qed.

Lemma ids_fresh_reachable os : ids_fresh (api_runs os empty_world).
Proof.
  unfold api_runs. generalize ids_fresh_empty. generalize empty_world.
  induction os as [|o os IH]; intros w Hf; cbn; [done|].
  apply IH. by apply ids_fresh_api_run.
Qed.

(** A Hub made on a thread that has none is ready to take ticks and
    timers. *)
Lemma hub_new_ready th w :
  tls w !! th = None → ids_fresh w →
  ∃ w', Hub_new th w = (w', Ok (next_id w)) ∧
        tick_ready w' (next_id w) (5 + next_id w) (6 + next_id w) [] false ∧
        hub_takes_timers w' th (next_id w).
Proof.
  intros En Hf. munfold. mrun.
  eexists. split; [reflexivity|]. split.
  - unfold tick_ready, unowned. cbn. rewrite lookup_insert_eq. cbn.
    rewrite lookup_insert_eq. rewrite lookup_insert_ne by lia.
    rewrite lookup_insert_eq.
    split; [lia|]. split; [by eexists|]. split; [by eexists|].
    split; [by eexists|].
    intros t T E _ Eh. specialize (Hf _ _ E _ Eh). cbn in Hf. lia.
  - unfold hub_takes_timers. cbn. rewrite !lookup_insert_eq.
    split; [done|]. split; [by eexists _, _, _|].
    intros t T E Eh. specialize (Hf _ _ E _ Eh). cbn in Hf. lia.
Qed.

Lemma ids_fresh_takes_timers w th hub H s l :
  ids_fresh w → tls w !! th = Some hub → hubs w !! hub = Some H →
  _timers H = Some s → loop H = Some l → hub_takes_timers w th hub.
Proof.
  intros Hf Et EH Es El. split; [done|]. split; [by eexists _, _, _|].
  intros t T E Eh. specialize (Hf _ _ E _ Eh). cbn in Hf. lia.
Qed.

(** ** Construction and teardown, in full *)

Lemma world_eq (w1 w2 : World) :
  tls w1 = tls w2 → hubs w1 = hubs w2 → timers w1 = timers w2 →
  handles w1 = handles w2 → loops w1 = loops w2 → parent w1 = parent w2 →
  hook w1 = hook w2 → running w1 = running w2 → next_id w1 = next_id w2 →
  trace w1 = trace w2 → w1 = w2.
Proof. destruct w1, w2. cbn. by intros -> -> -> -> -> -> -> -> -> ->. Qed.

Lemma hub_new_shape th w :
  tls w !! th = None → Hub_new th w = (hub_made th w, Ok (next_id w)).
Proof.
  intros En. munfold. mrun. f_equal.
  apply world_eq; cbn; try done; by rewrite insert_insert_eq.
Qed.

Lemma hub_new_ok_inv th w w1 hub :
  Hub_new th w = (w1, Ok hub) →
  tls w !! th = None ∧ w1 = hub_made th w ∧ hub = next_id w.
Proof.
  intros E. destruct (tls w !! th) as [h|] eqn:En.
  - exfalso. revert E. munfold. mrun. done.
  - rewrite (hub_new_shape _ _ En) in E. by injection E as <- <-.
Qed.


Lemma destroy_shape w th self H l :
  tls w !! th = Some self → hubs w !! self = Some H → loop H = Some l →
  Hub_destroy self th w =
    (mkWorld (delete th (tls w)) (<[self := destroyed H]> (hubs w)) (timers w)
             (pyuv.close_if_open l <$> handles w) (<[l := mkLoop None]> (loops w))
             (parent w) (hook w) (running w) (next_id w) (trace w), Ok tt).
Proof.
  intros Et EH El. munfold. mrun. rewrite decide_True by done. mrun.
  reflexivity.
Qed.

Lemma destroy_ok_inv w th self w' :
  Hub_destroy self th w = (w', Ok tt) →
  ∃ H l, tls w !! th = Some self ∧ hubs w !! self = Some H ∧ loop H = Some l.
Proof.
  intros E.
  assert (G : match Hub_destroy self th w with
              | (_, Ok _) => ∃ H l, tls w !! th = Some self ∧
                                    hubs w !! self = Some H ∧ loop H = Some l
              | _ => True
              end).
  { munfold. msteps; try done. subst. eauto. }
  by rewrite E in G.
Qed.

(** X1.  [Hub()] on a thread that has no Hub returns a new Hub bound to the
    thread.  Its greenlet is a child of the calling greenlet, its loop
    reports errors to this Hub, its timer set and tick queue are empty,
    and its four handles are open on its loop: the waker active and
    unreferenced, the signal checker, the turn marker and its idle
    companion not started.  Nothing is entered, and the objects that
    existed before are left as they were. *)
Theorem hub_init_builds w th :
  tls w !! th = None →
  ∃ w' g l wk sc tp ti,
    Hub_new th w = (w', Ok (next_id w)) ∧
    trace w' = trace w ∧
    tls w' = <[th := next_id w]> (tls w) ∧
    hubs w' !! next_id w =
      Some (mkHub g (Some l) (Some tt) (Some ∅) (Some wk) (Some sc) (Some tp)
                  (Some ti) (Some [])) ∧
    parent w' !! g = Some (current_of w th) ∧
    loops w' !! l = Some (mkLoop (Some (next_id w))) ∧
    handles w' !! wk = Some (mkHandle HAsync l CbWakerNoop true false false false) ∧
    handles w' !! sc = Some (mkHandle HSignalChecker l CbUnset false false true false) ∧
    handles w' !! tp = Some (mkHandle HPrepare l CbUnset false false true false) ∧
    handles w' !! ti = Some (mkHandle HIdle l CbUnset false false true false) ∧
    (∀ k, k < next_id w →
          hubs w' !! k = hubs w !! k ∧ handles w' !! k = handles w !! k ∧
          loops w' !! k = loops w !! k) ∧
    timers w' = timers w.
Proof.
  intros En. munfold. mrun.
  exists (Hub_new th w).1,
    (Fiber (1 + next_id w)), (2 + next_id w), (3 + next_id w),
    (4 + next_id w), (5 + next_id w), (6 + next_id w).
  munfold. mrun. split; [reflexivity|]. cbn.
  repeat (rewrite ?lookup_insert_eq; try rewrite lookup_insert_ne by lia).
  repeat (split; [done|]). split; [|done].
  intros k Hk. by rewrite !lookup_insert_ne by lia.
Qed.

Lemma hub_init_builds_witness :
  tls empty_world !! 0 = None ∧
  ∃ w', Hub_new 0 empty_world = (w', Ok 0) ∧
        handles w' !! 3 = Some (mkHandle HAsync 2 CbWakerNoop true false false false).
Proof.
  assert (H0 : tls empty_world !! 0 = None) by reflexivity.
  split; [exact H0|].
  destruct (hub_init_builds empty_world 0 H0)
    as (w' & g & l & wk & sc & tp & ti & E & _).
  exists w'. split; [exact E|].
  vm_compute in E. injection E as <-. vm_compute. reflexivity.
Defined.

(** X2.  [destroy()] called on the thread the Hub is bound to returns: the
    thread is unbound, the loop's error hook is taken off, the Hub lets go
    of all it owned but its greenlet, and every handle of its loop is
    closed, so that none of them fires any more; handles of other loops,
    other Hubs and the timer objects are left as they were, and nothing is
    entered. *)
Theorem destroy_closes_loop w th self H l :
  tls w !! th = Some self → hubs w !! self = Some H → loop H = Some l →
  ∃ w',
    Hub_destroy self th w = (w', Ok tt) ∧
    trace w' = trace w ∧
    tls w' = delete th (tls w) ∧
    hubs w' !! self = Some (destroyed H) ∧
    loops w' !! l = Some (mkLoop None) ∧
    (∀ h Hd, handles w !! h = Some Hd → h_loop Hd = l →
       (∃ Hd', handles w' !! h = Some Hd' ∧ closed Hd' = true) ∧
       ∀ th', dispatch h th' w' = (w', Ok tt)) ∧
    (∀ h Hd, handles w !! h = Some Hd → h_loop Hd ≠ l →
       handles w' !! h = Some Hd) ∧
    (∀ k, k ≠ self → hubs w' !! k = hubs w !! k) ∧
    timers w' = timers w.
Proof.
  intros Et EH El. eexists. split; [by eapply destroy_shape|]. cbn.
  rewrite !lookup_insert_eq. repeat (split; [done|]).
  split; [|split; [|split; [|done]]].
  - intros h Hd Eh Hl.
    assert (Ec : ∃ Hd', (pyuv.close_if_open l <$> handles w) !! h = Some Hd' ∧
                        closed Hd' = true).
    { rewrite lookup_fmap, Eh. cbn. eexists. split; [done|].
      unfold pyuv.close_if_open. rewrite bool_decide_true by done. cbn.
      by destruct (closed Hd) eqn:Ec. }
    split; [done|]. destruct Ec as (Hd' & Eh' & Hc). intros th'.
    unfold dispatch. by erewrite fire_closed.
  - intros h Hd Eh Hl. rewrite lookup_fmap, Eh. cbn.
    unfold pyuv.close_if_open. by rewrite bool_decide_false by done.
  - intros k Hk. by rewrite lookup_insert_ne.
Qed.

Lemma destroy_closes_loop_witness :
  tls w_timer !! 0 = Some 0 ∧
  (∃ H, hubs w_timer !! 0 = Some H ∧ loop H = Some 2) ∧
  ∃ w', Hub_destroy 0 0 w_timer = (w', Ok tt) ∧
        dispatch 8 0 w' = (w', Ok tt).
Proof.
  assert (Et : tls w_timer !! 0 = Some 0) by (vm_compute; reflexivity).
  assert (EH : hubs w_timer !! 0 = Some (with_timers (Some {[7]}) hub0)).
  { vm_compute. reflexivity. }
  assert (El : loop (with_timers (Some {[7]}) hub0) = Some 2) by reflexivity.
  split; [exact Et|]. split; [eexists; split; [exact EH|exact El]|].
  destruct (destroy_closes_loop w_timer 0 0 _ 2 Et EH El)
    as (w' & E & _ & _ & _ & _ & Hh & _).
  exists w'. split; [exact E|].
  refine (proj2 (Hh 8 (mkHandle HTimer 2 (CbTimer 7) true false true false) _ _) 0).
  - vm_compute. reflexivity.
  - reflexivity.
Defined.

(** X3.  A Hub that was destroyed refuses further use: [next_tick] raises
    AttributeError without queuing, [call_later] raises AttributeError
    without making a reactor timer or touching any Hub, [call_from_thread]
    raises TypeError without making a handle, and a second [destroy()]
    raises RuntimeError; the first, third and last leave the world as it
    was. *)
Theorem destroyed_hub_refuses w th self w' :
  Hub_destroy self th w = (w', Ok tt) →
  (∀ f, Hub_next_tick self f w' =
          (w', Raise (Exn AttributeError
                        "'NoneType' object has no attribute 'append'"))) ∧
  (∀ secs c, ∃ w2,
     Hub_call_later self secs c w' =
       (w2, Raise (Exn AttributeError "'NoneType' object has no attribute 'add'")) ∧
     hubs w2 = hubs w' ∧ handles w2 = handles w' ∧ trace w2 = trace w') ∧
  (∀ func, ∃ e, Hub_call_from_thread self func w' = (w', Raise e) ∧
                exn_typ e = TypeError) ∧
  Hub_destroy self th w' =
    (w', Raise (Exn RuntimeError "hub is already destroyed")).
Proof.
  intros E. destruct (destroy_ok_inv _ _ _ _ E) as (H & l & Et & EH & El).
  rewrite (destroy_shape _ _ _ _ _ Et EH El) in E. injection E as <-.
  split; [|split; [|split]].
  - intros f. munfold. cbn. rewrite lookup_insert_eq. reflexivity.
  - intros secs c. munfold. cbn. rewrite lookup_insert_eq. cbn.
    eexists. split; [reflexivity|]. done.
  - intros func. munfold. cbn. rewrite lookup_insert_eq. cbn.
    eexists. split; [reflexivity|]. done.
  - munfold. cbn. rewrite lookup_delete_eq. reflexivity.
Qed.

Lemma destroyed_hub_refuses_witness :
  Hub_destroy 0 0 w_hub = (w_destroyed, Ok tt) ∧
  Hub_next_tick 0 (Note 1) w_destroyed =
    (w_destroyed, Raise (Exn AttributeError
                           "'NoneType' object has no attribute 'append'")).
Proof.
  assert (Hd : Hub_destroy 0 0 w_hub = (w_destroyed, Ok tt))
    by (vm_compute; reflexivity).
  split; [exact Hd|].
  exact (proj1 (destroyed_hub_refuses w_hub 0 0 w_destroyed Hd) (Note 1)).
Defined.

(** ** Timers and teardown *)

Lemma call_later_shape w th hub secs c H s l :
  tls w !! th = Some hub → hubs w !! hub = Some H → _timers H = Some s →
  loop H = Some l →
  Hub_call_later hub secs c w =
    (mkWorld (tls w)
       (<[hub := with_timers (Some ({[next_id w]} ∪ s)) H]> (hubs w))
       (<[next_id w := mkTimer false (Some c) (Some (S (next_id w)))]> (timers w))
       (<[S (next_id w) :=
            mkHandle HTimer l (CbTimer (next_id w)) true false true false]>
          (handles w))
       (loops w) (parent w) (hook w) (running w) (S (S (next_id w)))
       (trace w ++ [EvStart (S (next_id w))]), Ok (next_id w)).
Proof.
  intros Et EH Es El. munfold. mrun. f_equal.
  apply world_eq; cbn; try done; by rewrite insert_insert_eq.
Qed.

(** X4.  A timer that is pending when its Hub is destroyed never fires:
    its reactor handle is closed with the loop, its callable is not
    entered, and it goes on answering [pending] with True.  Cancelling it
    afterwards raises, the handle being closed already, yet marks it, so
    that [pending] answers False from then on. *)
Theorem destroy_strands_timer w th hub secs c :
  hub_takes_timers w th hub →
  ∃ w1 t h w2,
    Hub_call_later hub secs c w = (w1, Ok t) ∧
    Hub_destroy hub th w1 = (w2, Ok tt) ∧
    calls (trace w2) = calls (trace w) ∧
    _Timer_pending t w2 = (w2, Ok true) ∧
    (∀ th', dispatch h th' w2 = (w2, Ok tt)) ∧
    ∃ w3 e, _Timer_cancel t th w2 = (w3, Raise e) ∧
            exn_typ e = HandleClosedError ∧
            _Timer_pending t w3 = (w3, Ok false).
Proof.
  intros (Etls & (H & s & l & EHub & Es & El) & _).
  eexists _, (next_id w), (S (next_id w)), _.
  split; [by eapply call_later_shape|].
  split; [eapply destroy_shape; cbn; [done|apply lookup_insert_eq|done]|].
  cbn. split; [rewrite calls_app; cbn; by rewrite app_nil_r|].
  split.
  { unfold _Timer_pending. munfold. cbn. by rewrite lookup_insert_eq. }
  split.
  - intros th'. unfold dispatch. erewrite fire_closed; [done| |].
    + cbn. rewrite lookup_fmap, lookup_insert_eq. reflexivity.
    + cbn. unfold pyuv.close_if_open. cbn. by rewrite bool_decide_true.
  - munfold. cbn. rewrite lookup_insert_eq. cbn.
    rewrite lookup_fmap, lookup_insert_eq. cbn.
    unfold pyuv.close_if_open. cbn. rewrite bool_decide_true by done. cbn.
    eexists _, _. split; [reflexivity|]. split; [done|].
    unfold _Timer_pending. munfold. cbn. by rewrite lookup_insert_eq.
Qed.

Lemma hub_takes_timers_w_hub : hub_takes_timers w_hub 0 0.
Proof.
  split; [vm_compute; reflexivity|]. split; [|compute_done].
  exists hub0, ∅, 2. repeat split; vm_compute; reflexivity.
Defined.

Lemma destroy_strands_timer_witness :
  hub_takes_timers w_hub 0 0 ∧
  ∃ w1 t w2, Hub_call_later 0 5 ring w_hub = (w1, Ok t) ∧
             Hub_destroy 0 0 w1 = (w2, Ok tt) ∧
             _Timer_pending t w2 = (w2, Ok true).
Proof.
  split; [exact hub_takes_timers_w_hub|].
  destruct (destroy_strands_timer w_hub 0 0 5 ring hub_takes_timers_w_hub)
    as (w1 & t & h & w2 & E1 & E2 & _ & E3 & _).
  exists w1, t, w2. repeat split; assumption.
Defined.

(** X5.  [cancel()] finds the Hub through the calling thread, not through
    the timer.  Called for a pending timer on a thread that has no Hub it
    raises RuntimeError, and on a thread whose Hub does not track the
    timer it raises KeyError; either way the timer is already marked and
    its handle closed and dropped by then, while the Hub that owns the
    timer goes on tracking it. *)
Theorem cancel_off_hub_thread w th th' t c h hub :
  timer_pending w th t c h hub →
  (tls w !! th' = None →
   ∃ w', _Timer_cancel t th' w =
           (w', Raise (Exn RuntimeError
                         "there is no hub created in the current thread")) ∧
         trace w' = trace w ∧ timer_stale w' t h hub) ∧
  (∀ hub' H' s',
     tls w !! th' = Some hub' → hubs w !! hub' = Some H' →
     _timers H' = Some s' → t ∉ s' →
     ∃ w' e, _Timer_cancel t th' w = (w', Raise e) ∧ exn_typ e = KeyError ∧
             trace w' = trace w ∧ timer_stale w' t h hub).
Proof.
  intros (ET & (Hd & EH & Hop) & Hown & Etls & (H & s & EHub & Es & Hin)).
  split.
  - intros En. munfold. rewrite ET. cbn. rewrite EH. cbn. rewrite Hop. cbn.
    rewrite lookup_insert_eq. cbn. rewrite En. cbn.
    eexists. split; [reflexivity|]. split; [done|].
    unfold timer_stale. cbn. rewrite !lookup_insert_eq.
    split; [by eexists|]. split; [by eexists|]. by eexists _, _.
  - intros hub' H' s' Et' EH' Es' Hnin.
    munfold. rewrite ET. cbn. rewrite EH. cbn. rewrite Hop. cbn.
    rewrite lookup_insert_eq. cbn. rewrite Et'. cbn. rewrite EH'. cbn.
    rewrite Es'. cbn. rewrite decide_False by done.
    eexists _, _. split; [reflexivity|]. split; [done|]. split; [done|].
    unfold timer_stale. cbn. rewrite !lookup_insert_eq.
    split; [by eexists|]. split; [by eexists|]. by eexists _, _.
Qed.

Lemma cancel_off_hub_thread_witness :
  timer_pending w_timer 0 7 ring 8 0 ∧ tls w_timer !! 1 = None ∧
  ∃ w', _Timer_cancel 7 1 w_timer =
          (w', Raise (Exn RuntimeError
                        "there is no hub created in the current thread")) ∧
        timer_stale w' 7 8 0.
Proof.
  assert (En : tls w_timer !! 1 = None) by (vm_compute; reflexivity).
  split; [exact w_timer_pending|]. split; [exact En|].
  destruct (proj1 (cancel_off_hub_thread w_timer 0 1 7 ring 8 0 w_timer_pending) En)
    as (w' & E & _ & S).
  exists w'. split; assumption.
Defined.

(** X6.  [cancel()] on a pending timer touches nothing but the timer
    itself, its own reactor handle and the timer set of its Hub, from
    which it takes this timer and no other. *)
Theorem cancel_leaves_others w th t c h hub H s :
  timer_pending w th t c h hub →
  hubs w !! hub = Some H → _timers H = Some s →
  ∃ w',
    _Timer_cancel t th w = (w', Ok tt) ∧
    hubs w' = <[hub := with_timers (Some (s ∖ {[t]})) H]> (hubs w) ∧
    (∀ t', t' ≠ t → timers w' !! t' = timers w !! t') ∧
    (∀ h', h' ≠ h → handles w' !! h' = handles w !! h') ∧
    tls w' = tls w ∧ loops w' = loops w ∧ parent w' = parent w ∧
    running w' = running w ∧ trace w' = trace w.
Proof.
  intros (ET & (Hd & EH & Hop) & Hown & Etls & (H0 & s0 & EHub & Es & Hin)) EH' Es'.
  assert (H0 = H) as -> by congruence. assert (s0 = s) as -> by congruence.
  munfold. rewrite ET. cbn. rewrite EH. cbn. rewrite Hop. cbn.
  rewrite lookup_insert_eq. cbn. rewrite Etls. cbn. rewrite EHub. cbn.
  rewrite Es. cbn. rewrite decide_True by done. cbn.
  eexists. split; [reflexivity|]. cbn. split; [done|].
  split; [intros t' Hne; by rewrite !lookup_insert_ne|].
  split; [intros h' Hne; by rewrite lookup_insert_ne|]. done.
Qed.

Lemma cancel_leaves_others_witness :
  timer_pending w_timer 0 7 ring 8 0 ∧
  ∃ w', _Timer_cancel 7 0 w_timer = (w', Ok tt) ∧
        handles w' !! 5 = handles w_timer !! 5.
Proof.
  split; [exact w_timer_pending|].
  destruct (cancel_leaves_others w_timer 0 7 ring 8 0
              (with_timers (Some {[7]}) hub0) {[7]} w_timer_pending)
    as (w' & E & _ & _ & Hh & _).
  - vm_compute. reflexivity.
  - reflexivity.
  - exists w'. split; [exact E|]. apply Hh. lia.
Defined.

(** X7.  [pending] answers True for a pending timer and False once the
    timer has fired or was cancelled, whichever came first and whatever
    came after; asking changes nothing. *)
Theorem pending_until_fired_or_cancelled w th t c h hub :
  timer_pending w th t c h hub →
  _Timer_pending t w = (w, Ok true) ∧
  ∀ a l, _Timer_pending t (timer_race t th (a :: l) w) =
           (timer_race t th (a :: l) w, Ok false).
Proof.
  intros Hp. split.
  - destruct Hp as (ET & _). unfold _Timer_pending. munfold. by rewrite ET.
  - intros a l.
    assert (G : ∃ T, timers (timer_race t th (a :: l) w) !! t = Some T ∧
                     called T = true).
    { cbn. destruct a; cbn.
      - destruct (timer_cb_fires _ _ _ _ _ _ Hp) as (w' & r & E & _ & _ & ET & _).
        rewrite E. cbn. rewrite (timer_race_called _ _ _ _ _ ET eq_refl). eauto.
      - destruct (cancel_pending _ _ _ _ _ _ Hp) as (w' & E & _ & ET & _).
        rewrite E. cbn. rewrite (timer_race_called _ _ _ _ _ ET eq_refl). eauto. }
    destruct G as (T & ET & Hc). unfold _Timer_pending. munfold.
    rewrite ET. cbn. by rewrite Hc.
Qed.

Lemma pending_until_fired_or_cancelled_witness :
  timer_pending w_timer 0 7 ring 8 0 ∧
  _Timer_pending 7 w_timer = (w_timer, Ok true) ∧
  (_Timer_pending 7 (timer_race 7 0 [Cancels; Fires] w_timer)).2 = Ok false.
Proof.
  split; [exact w_timer_pending|].
  destruct (pending_until_fired_or_cancelled w_timer 0 7 ring 8 0 w_timer_pending)
    as (A & B).
  split; [exact A|]. by rewrite (B Cancels [Fires]).
Defined.

Lemma with_timers_back H s s' :
  _timers H = Some s → with_timers (Some s) (with_timers s' H) = H.
Proof. destruct H. cbn. by intros ->. Qed.

(** X8.  [call_later] followed by [cancel()] of the timer it returned
    leaves the Hub exactly as it was before the two calls, and the
    callable is never entered. *)
Theorem call_later_cancel_round_trip w th hub secs c H s :
  hub_takes_timers w th hub →
  hubs w !! hub = Some H → _timers H = Some s → next_id w ∉ s →
  ∃ w1 t w2,
    Hub_call_later hub secs c w = (w1, Ok t) ∧
    _Timer_cancel t th w1 = (w2, Ok tt) ∧
    hubs w2 = hubs w ∧ tls w2 = tls w ∧
    calls (trace w2) = calls (trace w) ∧
    _Timer_pending t w2 = (w2, Ok false).
Proof.
  intros (Etls & (H0 & s0 & l & EHub & Es & El) & _) EH' Es' Hnin.
  assert (H0 = H) as -> by congruence. assert (s0 = s) as -> by congruence.
  eexists _, (next_id w), _.
  split; [by eapply call_later_shape|].
  unfold _Timer_pending. munfold. mrun. rewrite decide_True by set_solver. mrun.
  match goal with
  | |- context [with_timers (Some ?X) (with_timers _ H)] =>
      assert (X = s) as -> by set_solver
  end.
  rewrite (with_timers_back _ _ _ Es).
  split; [reflexivity|]. cbn. rewrite !lookup_insert_eq. cbn.
  split; [|split; [done|split; [|done]]].
  - rewrite insert_insert_eq. by apply insert_id.
  - rewrite calls_app. cbn. by rewrite app_nil_r.
Qed.

Lemma call_later_cancel_round_trip_witness :
  hub_takes_timers w_hub 0 0 ∧ hubs w_hub !! 0 = Some hub0 ∧
  (next_id w_hub ∉ (∅ : gset timer_id)) ∧
  ∃ w1 t w2, Hub_call_later 0 5 ring w_hub = (w1, Ok t) ∧
             _Timer_cancel t 0 w1 = (w2, Ok tt) ∧ hubs w2 = hubs w_hub.
Proof.
  assert (EH : hubs w_hub !! 0 = Some hub0) by (vm_compute; reflexivity).
  assert (Hn : next_id w_hub ∉ (∅ : gset timer_id)) by set_solver.
  split; [exact hub_takes_timers_w_hub|]. split; [exact EH|]. split; [exact Hn|].
  destruct (call_later_cancel_round_trip w_hub 0 0 5 ring hub0 ∅
              hub_takes_timers_w_hub EH eq_refl Hn)
    as (w1 & t & w2 & E1 & E2 & E3 & _).
  exists w1, t, w2. repeat split; assumption.
Defined.

(** ** Steps of a relation, composed along the code *)

Section preserves.
Context (R : World → World → Prop) `{!PreOrder R}.

Lemma pres_ret {A} (a : A) : preserves R (ret a).
Proof. intros w. cbn. reflexivity. Qed.

Lemma pres_raise {A} e : preserves R (@raise A e).
Proof. intros w. cbn. reflexivity. Qed.

Lemma pres_get {A} (f : World → A) : preserves R (get f).
Proof. intros w. cbn. reflexivity. Qed.

Lemma pres_deref {A} what (o : option A) : preserves R (deref what o).
Proof. destruct o; [apply pres_ret|apply pres_raise]. Qed.

Lemma pres_not_none {A} attr (o : option A) : preserves R (not_none attr o).
Proof. destruct o; [apply pres_ret|apply pres_raise]. Qed.

Lemma pres_bind {A B} (m : M A) (k : A → M B) :
  preserves R m → (∀ a, preserves R (k a)) → preserves R (bind m k).
Proof.
  intros Hm Hk w. unfold bind. specialize (Hm w).
  destruct (m w) as [w1 [a|e]]; cbn in *; [|done].
  etrans; [exact Hm|]. apply Hk.
Qed.

Lemma pres_try_finally {A} (m : M A) fin :
  preserves R m → preserves R fin → preserves R (try_finally m fin).
Proof.
  intros Hm Hf w. unfold try_finally. specialize (Hm w).
  destruct (m w) as [w1 r]; cbn in *. specialize (Hf w1).
  destruct (fin w1) as [w2 [[]|e]]; cbn in *; by etrans.
Qed.

Lemma pres_try_except cls m :
  preserves R m → preserves R (try_except_pass cls m).
Proof.
  intros Hm w. unfold try_except_pass. specialize (Hm w).
  destruct (m w) as [w1 [[]|e]]; cbn in *; [done|]. by case_decide.
Qed.

Lemma pres_for_each {A} (l : list A) body :
  (∀ x, preserves R (body x)) → preserves R (for_each l body).
Proof.
  intros Hb. induction l as [|x l IH]; cbn; [apply pres_ret|].
  apply pres_bind; [apply Hb|]. intros _. exact IH.
Qed.
End preserves.

(** ** Steps that are quiet *)

#[global] Instance quiet_preorder : PreOrder quiet.
Proof.
  split.
  - intros w. by split.
  - intros w1 w2 w3 [A1 A2 A3] [B1 B2 B3]. split.
    + intros h. by rewrite B1.
    + by rewrite B2.
    + by rewrite B3.
Qed.

Lemma prints_app tr1 tr2 : prints (tr1 ++ tr2) = prints tr1 ++ prints tr2.
Proof. apply omap_app. Qed.

Lemma quiet_same w w' :
  handles w' = handles w → loops w' = loops w →
  prints (trace w') = prints (trace w) → quiet w w'.
Proof. intros E1 E2 E3. split; [by rewrite E1|done..]. Qed.

Lemma quiet_set_trace ev w :
  print_of ev = None → quiet w (set_trace (λ t, t ++ [ev]) w).
Proof.
  intros Hp. apply quiet_same; [done..|]. cbn.
  rewrite prints_app. cbn. rewrite Hp. apply app_nil_r.
Qed.

Lemma quiet_emit ev : print_of ev = None → preserves quiet (emit ev).
Proof. intros Hp w. by apply quiet_set_trace. Qed.

Lemma quiet_put_hub h H : preserves quiet (put_hub h H).
Proof. intros w. by apply quiet_same. Qed.

Lemma quiet_put_timer t T : preserves quiet (put_timer t T).
Proof. intros w. by apply quiet_same. Qed.

Lemma quiet_hub_obj h : preserves quiet (hub_obj h).
Proof. apply (pres_bind quiet); [apply (pres_get quiet)|]. intros o. apply (pres_deref quiet). Qed.

Lemma quiet_timer_obj t : preserves quiet (timer_obj t).
Proof. apply (pres_bind quiet); [apply (pres_get quiet)|]. intros o. apply (pres_deref quiet). Qed.

Lemma quiet_get_handle h : preserves quiet (pyuv.get_handle h).
Proof. apply (pres_bind quiet); [apply (pres_get quiet)|]. intros o. apply (pres_deref quiet). Qed.

Lemma quiet_get_hub th : preserves quiet (get_hub th).
Proof.
  apply (pres_bind quiet); [apply (pres_get quiet)|]. intros [hub|];
    [apply (pres_ret quiet)|apply (pres_raise quiet)].
Qed.

(** Writing back a handle with its kind and loop. *)
Lemma quiet_rewrite_handle h Hd Hd' w :
  handles w !! h = Some Hd → handle_sig Hd' = handle_sig Hd →
  prints (trace (set_handles <[h := Hd']> w)) = prints (trace w) →
  quiet w (set_handles <[h := Hd']> w).
Proof.
  intros E Hs Hp. split; [|done..]. intros h0. cbn.
  destruct (decide (h = h0)) as [<-|Hne].
  - by rewrite lookup_insert_eq, E; cbn; rewrite Hs.
  - by rewrite lookup_insert_ne.
Qed.

Ltac quiet_handle_op :=
  intros w; munfold;
  destruct (handles w !! _) as [Hd|] eqn:E; cbn; [|reflexivity];
  destruct (closed Hd); cbn; [reflexivity|];
  try (etrans; [|by apply quiet_set_trace]);
  by eapply quiet_rewrite_handle.

Lemma quiet_start h c : preserves quiet (pyuv.start h c).
Proof. quiet_handle_op. Qed.

Lemma quiet_stop h : preserves quiet (pyuv.stop h).
Proof. quiet_handle_op. Qed.

Lemma quiet_close h : preserves quiet (pyuv.close h).
Proof. quiet_handle_op. Qed.

Lemma quiet_send h : preserves quiet (pyuv.send h).
Proof. quiet_handle_op. Qed.

(** Going through the code with the steps known so far. *)
Ltac quiet_step :=
  first
    [ apply (pres_ret quiet) | apply (pres_raise quiet) | apply (pres_get quiet)
    | apply (pres_deref quiet) | apply (pres_not_none quiet)
    | apply quiet_hub_obj | apply quiet_timer_obj | apply quiet_get_handle
    | apply quiet_get_hub | apply quiet_put_hub | apply quiet_put_timer
    | apply quiet_start | apply quiet_stop | apply quiet_close | apply quiet_send
    | by apply quiet_emit
    | apply (pres_bind quiet); [|intros ?]
    | apply (pres_try_finally quiet) | apply (pres_try_except quiet) | apply (pres_for_each quiet)
    | match goal with
      | |- preserves _ (if ?b then _ else _) => destruct b
      | |- preserves _ (match ?o with _ => _ end) => destruct o
      end ].

Lemma quiet_next_tick self f : preserves quiet (Hub_next_tick self f).
Proof. unfold Hub_next_tick. repeat quiet_step. Qed.

Lemma quiet_timers_remove hub t : preserves quiet (timers_remove hub t).
Proof. unfold timers_remove. repeat quiet_step. Qed.

Lemma quiet_cancel t th : preserves quiet (_Timer_cancel t th).
Proof.
  unfold _Timer_cancel. repeat quiet_step.
Qed.

Lemma quiet_run_cb th c : preserves quiet (run_cb th c).
Proof.
  induction c as [tag|e|h f _|t|a IHa b IHb]; cbn.
  - by apply quiet_emit.
  - apply (pres_raise quiet).
  - apply quiet_next_tick.
  - apply quiet_cancel.
  - apply (pres_bind quiet); [done|]. by intros _.
Qed.

Lemma quiet_call site th c : preserves quiet (call site th c).
Proof.
  unfold call. apply (pres_bind quiet); [by apply quiet_emit|]. intros _.
  apply quiet_run_cb.
Qed.

Lemma quiet_timer_cb t th : preserves quiet (_Timer__timer_cb t th).
Proof.
  unfold _Timer__timer_cb, _Timer__timer_cb_finally.
  repeat first [apply quiet_call | apply quiet_timers_remove | quiet_step].
Qed.

Lemma quiet_tick_cb hub th : preserves quiet (Hub__tick_cb hub th).
Proof.
  unfold Hub__tick_cb. repeat first [intros ?; apply quiet_call | quiet_step].
Qed.

Lemma quiet_from_thread_cb a func th :
  preserves quiet (call_from_thread__cb a func th).
Proof.
  unfold call_from_thread__cb. repeat first [apply quiet_call | quiet_step].
Qed.

Lemma quiet_fire h th : preserves quiet (fire h th).
Proof.
  intros w. unfold fire, pyuv.get_handle, pyuv.put_handle, bind at 1, bind at 1,
    get, deref.
  destruct (handles w !! h) as [Hd|] eqn:E; cbn; [|reflexivity].
  destruct (closed Hd || negb (active Hd)); cbn; [reflexivity|].
  destruct (h_cb Hd); cbn; try reflexivity.
  - unfold bind, modify. cbn. etrans; [|apply quiet_timer_cb].
    by eapply quiet_rewrite_handle.
  - apply quiet_tick_cb.
  - apply quiet_stop.
  - destruct (h_sent Hd); cbn; [|reflexivity].
    unfold bind, modify. cbn. etrans; [|apply quiet_from_thread_cb].
    by eapply quiet_rewrite_handle.
Qed.

Lemma quiet_excepthook_of w w' h :
  quiet w w' → excepthook_of w' h = excepthook_of w h.
Proof.
  intros [Hs Hl _]. unfold excepthook_of. rewrite Hl. specialize (Hs h).
  destruct (handles w' !! h) as [Hd'|], (handles w !! h) as [Hd|];
    cbn in Hs; try done.
  injection Hs as _ ->. done.
Qed.

(** ** The error hook on ordinary errors *)

(** X9.  An error that is not of a [SYSTEM_ERROR] kind is never thrown
    into another greenlet and never queued: the hook returns.  It prints
    the error, once, unless the error is a [GreenletExit], which it lets
    go without a word; apart from that print nothing changes. *)
Theorem ordinary_error_is_logged w hub th e :
  issubclass (exn_typ e) SYSTEM_ERROR = false →
  (exn_typ e = GreenletExit → Hub__handle_error hub e th w = (w, Ok tt)) ∧
  (exn_typ e ≠ GreenletExit →
   Hub__handle_error hub e th w =
     (set_trace (λ t, t ++ [EvPrintException e]) w, Ok tt)).
Proof.
  intros Hs. unfold Hub__handle_error, bind. rewrite Hs. split.
  - intros ->. reflexivity.
  - intros Hne.
    assert (Hn : issubclass (exn_typ e) NOT_ERROR = false).
    { unfold issubclass, SYSTEM_ERROR, NOT_ERROR in *.
      apply bool_decide_eq_false in Hs. apply bool_decide_eq_false.
      set_solver. }
    rewrite Hn. reflexivity.
Qed.

Lemma ordinary_error_is_logged_witness :
  issubclass (exn_typ SomeError) SYSTEM_ERROR = false ∧
  exn_typ SomeError ≠ GreenletExit ∧
  prints (trace (Hub__handle_error 0 SomeError 0 w_hub).1) = [SomeError].
Proof.
  assert (Hs : issubclass (exn_typ SomeError) SYSTEM_ERROR = false)
    by (vm_compute; reflexivity).
  assert (Hn : exn_typ SomeError ≠ GreenletExit) by discriminate.
  split; [exact Hs|]. split; [exact Hn|].
  rewrite (proj2 (ordinary_error_is_logged w_hub 0 0 SomeError Hs) Hn).
  vm_compute. reflexivity.
Defined.

(** X10.  When the callable of an armed timer raises an error that is not
    of a [SYSTEM_ERROR] kind, the error stops at the hook of the loop:
    the reactor's dispatch returns, the error is printed once (not at all
    for a [GreenletExit]), and the timer is released as after a callable
    that returned. *)
Theorem timer_error_stops_at_hook w th t c h hub hk :
  timer_armed w th t c h hub → excepthook_of w h = Some hk →
  ∀ w1 e, fire h th w = (w1, Raise e) →
    issubclass (exn_typ e) SYSTEM_ERROR = false →
    ∃ w2,
      dispatch h th w = (w2, Ok tt) ∧
      prints (trace w2) =
        prints (trace w) ++
        (if issubclass (exn_typ e) NOT_ERROR then [] else [e]) ∧
      timer_calls t (trace w2) = S (timer_calls t (trace w)) ∧
      timer_released w2 t h hub.
Proof.
  intros Ha Ehk w1 e Ef Hs.
  destruct (fire_timer _ _ _ _ _ _ Ha) as (w' & r & wc & Ef' & _ & _ & Ec & _ & Hrel).
  rewrite Ef in Ef'. injection Ef' as <- <-.
  pose proof (quiet_fire h th w) as Q. rewrite Ef in Q. cbn in Q.
  unfold dispatch. rewrite Ef, (quiet_excepthook_of _ _ _ Q), Ehk.
  unfold Hub__handle_error, bind. rewrite Hs.
  destruct (issubclass (exn_typ e) NOT_ERROR); cbn.
  - eexists. split; [reflexivity|]. rewrite app_nil_r.
    split; [apply Q|]. split; [by eapply timer_calls_snoc|done].
  - eexists. split; [reflexivity|]. cbn. rewrite prints_app. cbn.
    rewrite (q_prints _ _ Q). split; [done|].
    split; [|done].
    eapply timer_calls_snoc. by rewrite calls_app, Ec; cbn; rewrite app_nil_r.
Qed.

Lemma w_timer_armed : timer_armed w_timer 0 7 ring 8 0.
Proof.
  split; [exact w_timer_pending|].
  eexists. split; [vm_compute; reflexivity|]. split; reflexivity.
Defined.

Lemma timer_error_stops_at_hook_witness :
  timer_armed w_timer 0 7 ring 8 0 ∧ excepthook_of w_timer 8 = Some 0 ∧
  (fire 8 0 w_timer).2 = Raise SomeError ∧
  issubclass (exn_typ SomeError) SYSTEM_ERROR = false ∧
  ∃ w2, dispatch 8 0 w_timer = (w2, Ok tt) ∧
        prints (trace w2) = prints (trace w_timer) ++ [SomeError].
Proof.
  assert (Ehk : excepthook_of w_timer 8 = Some 0) by (vm_compute; reflexivity).
  assert (Ef : fire 8 0 w_timer = ((fire 8 0 w_timer).1, Raise SomeError))
    by (vm_compute; reflexivity).
  assert (Hs : issubclass (exn_typ SomeError) SYSTEM_ERROR = false)
    by (vm_compute; reflexivity).
  split; [exact w_timer_armed|]. split; [exact Ehk|].
  split; [vm_compute; reflexivity|]. split; [exact Hs|].
  destruct (timer_error_stops_at_hook w_timer 0 7 ring 8 0 0 w_timer_armed Ehk
              _ _ Ef Hs) as (w2 & E & P & _).
  exists w2. split; [exact E|exact P].
Defined.

(** ** Entering and driving the loop *)

Lemma join_refuses ended w hub th H :
  hubs w !! hub = Some H →
  parent w !! greenlet H ≠ Some (current_of w th) →
  Hub_join ended hub th w =
    (w, Raise (Exn RuntimeError "run() can only be called from MAIN greenlet")).
Proof.
  intros EH Hp. unfold Hub_join, greenlet_dead, current_of in *. munfold.
  rewrite EH. cbn. by rewrite decide_False.
Qed.

Lemma join_shape ended w hub th H :
  hubs w !! hub = Some H →
  parent w !! greenlet H = Some (current_of w th) → greenlet H ∉ ended →
  Hub_join ended hub th w =
    (set_running <[th := greenlet H]>
       (set_trace (λ t, t ++ [EvSwitch (current_of w th) (greenlet H)]) w),
     Ok tt).
Proof.
  intros EH Hp Hd. unfold Hub_join, greenlet_dead, current_of in *. munfold.
  rewrite EH. cbn. rewrite decide_True by done. cbn.
  by rewrite bool_decide_false.
Qed.



(** X12.  The greenlet that made a Hub is the one that can [join()] it:
    from that greenlet, on the thread of the Hub, [join()] switches to the
    Hub's greenlet as long as that greenlet has not ended, while a call
    from a thread whose current greenlet is another one raises
    RuntimeError. *)
Theorem maker_can_join ended w th w1 hub H :
  Hub_new th w = (w1, Ok hub) → hubs w1 !! hub = Some H →
  (greenlet H ∉ ended →
   ∃ w2, Hub_join ended hub th w1 = (w2, Ok tt) ∧
         current_of w2 th = greenlet H ∧
         trace w2 = trace w ++ [EvSwitch (current_of w th) (greenlet H)]) ∧
  (∀ th', current_of w1 th' ≠ current_of w th →
     Hub_join ended hub th' w1 =
       (w1, Raise (Exn RuntimeError "run() can only be called from MAIN greenlet"))).
Proof.
  intros E EH. destruct (hub_new_ok_inv _ _ _ _ E) as (En & -> & ->).
  assert (Hg : greenlet H = Fiber (1 + next_id w)).
  { cbn in EH. rewrite lookup_insert_eq in EH. by injection EH as <-. }
  assert (Hp : parent (hub_made th w) !! greenlet H = Some (current_of w th)).
  { rewrite Hg. apply lookup_insert_eq. }
  assert (Hc : ∀ th', current_of (hub_made th w) th' = current_of w th') by done.
  split.
  - intros Hd. rewrite <- (Hc th) in Hp.
    rewrite (join_shape ended _ _ _ _ EH Hp Hd).
    eexists. split; [reflexivity|]. split.
    + unfold current_of. cbn. by rewrite lookup_insert_eq.
    + cbn. by rewrite Hc.
  - intros th' Hne. apply (join_refuses ended _ _ _ _ EH).
    rewrite Hp. congruence.
Qed.

Lemma maker_can_join_witness :
  Hub_new 0 empty_world = (w_hub, Ok 0) ∧ hubs w_hub !! 0 = Some hub0 ∧
  (greenlet hub0 ∉ (∅ : gset fiber_id)) ∧
  ∃ w2, Hub_join ∅ 0 0 w_hub = (w2, Ok tt) ∧ current_of w2 0 = greenlet hub0.
Proof.
  assert (Hl : greenlet hub0 ∉ (∅ : gset fiber_id)) by set_solver.
  destruct w_hub_is as (E & EH).
  split; [exact E|]. split; [exact EH|]. split; [exact Hl|].
  destruct (proj1 (maker_can_join ∅ empty_world 0 w_hub 0 hub0 E EH) Hl)
    as (w2 & Ej & Hc & _).
  exists w2. split; assumption.
Defined.

Lemma close_if_open_loop l Hd : h_loop (pyuv.close_if_open l Hd) = h_loop Hd.
Proof. unfold pyuv.close_if_open. by destruct (_ && _). Qed.

Lemma walk_close_closes l (hs : gmap handle_id Handle) h Hd :
  (pyuv.close_if_open l <$> hs) !! h = Some Hd → h_loop Hd = l →
  closed Hd = true.
Proof.
  rewrite lookup_fmap. destruct (hs !! h) as [Hd0|]; cbn; [|done].
  intros [= <-]. rewrite close_if_open_loop. intros El.
  unfold pyuv.close_if_open. rewrite bool_decide_true by done. cbn.
  by destruct (closed Hd0) eqn:Ec.
Qed.

Lemma walk_close_others l (hs : gmap handle_id Handle) h Hd :
  hs !! h = Some Hd → h_loop Hd ≠ l →
  (pyuv.close_if_open l <$> hs) !! h = Some Hd.
Proof.
  intros E Hl. rewrite lookup_fmap, E. cbn. unfold pyuv.close_if_open.
  by rewrite bool_decide_false.
Qed.

Lemma cleanup_loop_shape self H l w :
  hubs w !! self = Some H → loop H = Some l →
  Hub__cleanup_loop self w =
    (set_handles (fmap (pyuv.close_if_open l)) w, Ok tt).
Proof. intros EH El. munfold. by mrun. Qed.

(** X13.  [_run_loop] starts the signal checker and runs the reactor.
    However that run ends, returning or raising, every handle of the
    Hub's loop is closed before [_run_loop] ends in the same way; handles
    of other loops and the Hubs are left as the run left them.  If the Hub
    was destroyed during the run, the cleanup finds no loop and its
    AttributeError takes the place of the outcome of the run. *)
Theorem run_loop_cleans_up run w self th H sc S l :
  hubs w !! self = Some H → _signal_checker H = Some sc → loop H = Some l →
  handles w !! sc = Some S → closed S = false →
  ∃ ws,
    SignalChecker_start sc w = (ws, Ok tt) ∧
    trace ws = trace w ++ [EvStart sc] ∧
    ∀ w1 r, run l th ws = (w1, r) →
      (∀ H1 l1, hubs w1 !! self = Some H1 → loop H1 = Some l1 →
         ∃ w2, Hub__run_loop run self th w = (w2, r) ∧
               trace w2 = trace w1 ∧ hubs w2 = hubs w1 ∧
               (∀ h Hd, handles w2 !! h = Some Hd → h_loop Hd = l1 →
                        closed Hd = true) ∧
               (∀ h Hd, handles w1 !! h = Some Hd → h_loop Hd ≠ l1 →
                        handles w2 !! h = Some Hd)) ∧
      (∀ H1, hubs w1 !! self = Some H1 → loop H1 = None →
         Hub__run_loop run self th w =
           (w1, Raise (Exn AttributeError
                         "'NoneType' object has no attribute 'walk'"))).
Proof.
  intros EH Esc El ES Hop.
  assert (Ess : ∃ ws, SignalChecker_start sc w = (ws, Ok tt) ∧
                      trace ws = trace w ++ [EvStart sc] ∧ hubs ws = hubs w).
  { unfold SignalChecker_start. munfold. rewrite ES. cbn. rewrite Hop. cbn.
    eexists. split; [reflexivity|]. done. }
  destruct Ess as (ws & Ess & Ets & Ehs).
  exists ws. split; [done|]. split; [done|].
  intros w1 r Erun.
  assert (Ehead : Hub__run_loop run self th w =
                  try_finally (run l th) (Hub__cleanup_loop self) ws).
  { unfold Hub__run_loop, hub_obj, not_none, bind at 1, bind at 1, get, deref.
    rewrite EH. cbn. unfold bind at 1. rewrite Esc. cbn.
    unfold bind at 1. rewrite Ess. unfold try_finally, bind, get, ret.
    rewrite Ehs, EH. cbn. by rewrite El. }
  rewrite Ehead. unfold try_finally. rewrite Erun. split.
  - intros H1 l1 EH1 El1. rewrite (cleanup_loop_shape _ _ _ _ EH1 El1).
    eexists. split; [reflexivity|]. cbn. split; [done|]. split; [done|].
    split; [apply walk_close_closes|apply walk_close_others].
  - intros H1 EH1 El1. unfold Hub__cleanup_loop. munfold. rewrite EH1. cbn.
    by rewrite El1.
Qed.

Lemma run_loop_cleans_up_witness :
  hubs w_timer !! 0 = Some (with_timers (Some {[7]}) hub0) ∧
  handles w_timer !! 4 =
    Some (mkHandle HSignalChecker 2 CbUnset false false true false) ∧
  ∃ w2, Hub__run_loop (run_firing [8]) 0 0 w_timer = (w2, Ok tt) ∧
        prints (trace w2) = [SomeError] ∧
        ∀ h Hd, handles w2 !! h = Some Hd → h_loop Hd = 2 → closed Hd = true.
Proof.
  assert (EH : hubs w_timer !! 0 = Some (with_timers (Some {[7]}) hub0))
    by (vm_compute; reflexivity).
  assert (ES : handles w_timer !! 4 =
               Some (mkHandle HSignalChecker 2 CbUnset false false true false))
    by (vm_compute; reflexivity).
  split; [exact EH|]. split; [exact ES|].
  destruct (run_loop_cleans_up (run_firing [8]) w_timer 0 0 _ 4 _ 2
              EH eq_refl eq_refl ES eq_refl) as (ws & Ess & _ & Hrun).
  assert (Ews : ws = (SignalChecker_start 4 w_timer).1) by (by rewrite Ess).
  assert (Erun : run_firing [8] 2 0 ws = ((run_firing [8] 2 0 ws).1, Ok tt)).
  { rewrite Ews. vm_compute. reflexivity. }
  destruct (proj1 (Hrun _ _ Erun) (with_timers (Some ∅) hub0) 2)
    as (w2 & E & Et & _ & Hcl & _).
  - rewrite Ews. vm_compute. reflexivity.
  - reflexivity.
  - exists w2. split; [exact E|]. split; [|exact Hcl].
    rewrite Et, Ews. vm_compute. reflexivity.
Defined.

(** ** Worlds in working order *)













#[global] Instance carries_preorder I : PreOrder (carries I).
Proof. split; unfold carries; [intros w; tauto|intros w1 w2 w3; tauto]. Qed.










































(** ** The waker, an empty flush, and a Hub after its teardown *)

Lemma send_shape a Hd w :
  handles w !! a = Some Hd → closed Hd = false →
  pyuv.send a w =
    (set_handles <[a := mkHandle (h_kind Hd) (h_loop Hd) (h_cb Hd) (active Hd)
                                 false (h_ref Hd) true]> w, Ok tt).
Proof. intros E Hc. munfold. rewrite E. cbn. by rewrite Hc. Qed.

Lemma send_closed a Hd w :
  handles w !! a = Some Hd → closed Hd = true →
  ∃ e, pyuv.send a w = (w, Raise e) ∧ exn_typ e = HandleClosedError.
Proof. intros E Hc. munfold. rewrite E. cbn. rewrite Hc. by eexists. Qed.

(** X16.  [wake()] on the waker of a Hub just made returns and enters
    nothing; it only marks the waker's handle as sent, so that a second
    [wake()] changes nothing more.  Once the Hub is destroyed the handle is
    closed with the loop and [wake()] raises, changing nothing. *)
Theorem waker_wakes_until_destroyed w th w1 hub :
  Hub_new th w = (w1, Ok hub) →
  ∃ a w2,
    (∃ H, hubs w1 !! hub = Some H ∧ _waker H = Some a) ∧
    Waker_wake a w1 = (w2, Ok tt) ∧
    trace w2 = trace w1 ∧ hubs w2 = hubs w1 ∧
    (∀ h, h ≠ a → handles w2 !! h = handles w1 !! h) ∧
    Waker_wake a w2 = (w2, Ok tt) ∧
    ∃ w3 e, Hub_destroy hub th w2 = (w3, Ok tt) ∧
            Waker_wake a w3 = (w3, Raise e) ∧ exn_typ e = HandleClosedError.
Proof.
  intros E. destruct (hub_new_ok_inv _ _ _ _ E) as (En & -> & ->). clear E.
  set (a := 3 + next_id w).
  set (Hd := mkHandle HAsync (2 + next_id w) CbWakerNoop true false false false).
  set (Hd' := mkHandle HAsync (2 + next_id w) CbWakerNoop true false false true).
  assert (Ea : handles (hub_made th w) !! a = Some Hd).
  { cbn. do 3 rewrite lookup_insert_ne by (unfold a; lia). apply lookup_insert_eq. }
  set (w2 := set_handles <[a := Hd']> (hub_made th w)).
  assert (Ea2 : handles w2 !! a = Some Hd') by apply lookup_insert_eq.
  exists a, w2. split.
  { eexists. split; [apply lookup_insert_eq|done]. }
  unfold Waker_wake.
  split; [by rewrite (send_shape _ _ _ Ea eq_refl)|].
  split; [done|]. split; [done|].
  split; [intros h Hne; unfold w2; cbn; by rewrite lookup_insert_ne|].
  split.
  { rewrite (send_shape _ _ _ Ea2 eq_refl). f_equal.
    apply world_eq; try done. cbn. by rewrite insert_insert_eq. }
  assert (Et : tls w2 !! th = Some (next_id w)) by apply lookup_insert_eq.
  assert (EH : ∃ H, hubs w2 !! next_id w = Some H ∧ loop H = Some (2 + next_id w)).
  { eexists. split; [apply lookup_insert_eq|done]. }
  destruct EH as (H & EH & El).
  rewrite (destroy_shape _ _ _ _ _ Et EH El).
  set (w3 := mkWorld _ _ _ _ _ _ _ _ _ _).
  assert (Ea3 : handles w3 !! a = Some (pyuv.close_if_open (2 + next_id w) Hd')).
  { change (handles w3) with (pyuv.close_if_open (2 + next_id w) <$> handles w2).
    by rewrite lookup_fmap, Ea2. }
  destruct (send_closed _ _ _ Ea3) as (e & Es & He).
  { unfold pyuv.close_if_open. cbn. by rewrite bool_decide_true. }
  by exists w3, e.
Qed.

Lemma waker_wakes_until_destroyed_witness :
  Hub_new 0 empty_world = (w_hub, Ok 0) ∧
  ∃ w2, Waker_wake 3 w_hub = (w2, Ok tt) ∧ Waker_wake 3 w2 = (w2, Ok tt).
Proof.
  destruct w_hub_is as (E & _). split; [exact E|].
  destruct (waker_wakes_until_destroyed empty_world 0 w_hub 0 E)
    as (a & w2 & (H & EH & Ea) & E1 & _ & _ & _ & E2 & _).
  assert (a = 3) as ->.
  { revert EH Ea. vm_compute. intros [= <-]. by intros [= <-]. }
  exists w2. split; assumption.
Defined.

(** X17.  A flush with nothing queued disarms the turn marker and its
    companion, enters nothing and returns, leaving the queue empty. *)
Theorem empty_flush_is_quiet w hub th p i a :
  tick_ready w hub p i [] a →
  ∃ w', Hub__tick_cb hub th w = (w', Ok tt) ∧
        calls (trace w') = calls (trace w) ∧
        trace w' = trace w ++ [EvStop p; EvStop i] ∧
        tick_ready w' hub p i [] false.
Proof.
  intros R. destruct (tick_cb_swaps _ _ th _ _ _ _ R) as (ws & Rs & Et & E).
  exists ws. rewrite E. cbn. split; [done|]. split; [|done].
  rewrite Et, calls_app. cbn. by rewrite app_nil_r.
Qed.

Lemma empty_flush_is_quiet_witness :
  tick_ready w_hub 0 5 6 [] false ∧
  ∃ w', Hub__tick_cb 0 0 w_hub = (w', Ok tt) ∧ calls (trace w') = calls (trace w_hub).
Proof.
  split; [exact w_hub_tick_ready|].
  destruct (empty_flush_is_quiet w_hub 0 0 5 6 false w_hub_tick_ready)
    as (w' & E & Ec & _).
  exists w'. split; assumption.
Defined.


